(** * Block overview graph: the sprite renderer and its interaction layer

    A shallow embedding of
    [frontend/src/app/components/block-overview-graph/block-overview-graph.component.ts]:
    the vertex shader's interpolation, the filter colour function, the
    frame scheduler and the hover / select / mirror / search state machine.

    Conventions.
    - The shader's interpolation is embedded twice. [Shader32] computes
      in GLSL [float] as IEEE 754 binary32, every operation rounded to
      nearest even; [Shader] is the same code read in exact rationals
      [Q], for statements about the formula itself and for those that
      rounding does not change.
    - JavaScript [number] values that are measured (timestamps,
      coordinates) are exact rationals [Q].
    - JavaScript [bigint] is [Z]; [&] is [Z.land].
    - A slot of type [TxView | void] is a [Ref]: [Undefined], [Null] or an
      object.
    - Calls into the scene collaborator and emissions on the component's
      outputs are appended to a log, oldest first. *)

From Stdlib Require Import QArith Qminmax Lqa Lia ZArith Bool List SpecFloat.
From stdpp Require Import base option gmap strings.
Import ListNotations.

Local Open Scope Q_scope.

(** ** The vertex shader *)

Module Shader.

(** [vec4]: one animated attribute,
    [x] start value, [y] end value, [z] start time, [w] rate. *)
Record vec4 : Type := Vec4 { vx : Q; vy : Q; vz : Q; vw : Q }.

(** GLSL built-ins, as the GLSL ES specification defines them:
    [clamp(x, lo, hi) = min(max(x, lo), hi)] and
    [mix(x, y, a) = x * (1 - a) + y * a]. *)
Definition clamp (x lo hi : Q) : Q := Qmin (Qmax x lo) hi.
Definition mix (x y a : Q) : Q := x * (1 - a) + y * a.

(** [float smootherstep(float x)] *)
Definition smootherstep (x : Q) : Q :=
  let x := clamp x 0 1 in
  let ix := 1 - x in
  let x := x * x in
  x / (x + ix * ix).

(** [float interpolateAttribute(vec4 attr)], with the uniform [now] as an
    argument. *)
Definition interpolateAttribute (now : Q) (attr : vec4) : Q :=
  let d := (now - vz attr) * vw attr in
  let delta := smootherstep d in
  mix (vx attr) (vy attr) delta.

(** The ease curve as the specification writes it,
    [t^2 / (t^2 + (1 - t)^2)], without the clamp. *)
Definition ease (t : Q) : Q := (t * t) / (t * t + (1 - t) * (1 - t)).

End Shader.

(** ** The vertex shader in single precision *)

Module Shader32.

(** A GLSL [float] of the vertex shader ([highp] by default) as an IEEE 754
    binary32 number: [spec_float] at precision 24 and maximal exponent 128,
    whose operations round to nearest, ties to even. *)
Definition prec : Z := 24%Z.
Definition emax : Z := 128%Z.
Definition float : Type := spec_float.

Definition fadd : float -> float -> float := SFadd prec emax.
Definition fsub : float -> float -> float := SFsub prec emax.
Definition fmul : float -> float -> float := SFmul prec emax.
Definition fdiv : float -> float -> float := SFdiv prec emax.

(** The literals [0.0] and [1.0]. *)
Definition zero : float := S754_zero false.
Definition one : float := S754_finite false 8388608 (-23).


(** GLSL built-ins, as the GLSL ES specification defines them:
    [min(x, y)] is [y] if [y < x], otherwise [x]; [max(x, y)] is [y] if
    [x < y], otherwise [x]; [clamp(x, lo, hi) = min(max(x, lo), hi)];
    [mix(x, y, a) = x * (1 - a) + y * a]. *)
Definition fmin (x y : float) : float := if SFltb y x then y else x.
Definition fmax (x y : float) : float := if SFltb x y then y else x.
Definition clamp (x lo hi : float) : float := fmin (fmax x lo) hi.
Definition mix (x y a : float) : float :=
  fadd (fmul x (fsub one a)) (fmul y a).

Record vec4 : Type := Vec4 { vx : float; vy : float; vz : float; vw : float }.

(** [float smootherstep(float x)] *)
Definition smootherstep (x : float) : float :=
  let x := clamp x zero one in
  let ix := fsub one x in
  let x := fmul x x in
  fdiv x (fadd x (fmul ix ix)).

(** [float interpolateAttribute(vec4 attr)], with the uniform [now] as an
    argument. *)
Definition interpolateAttribute (now : float) (attr : vec4) : float :=
  let d := fmul (fsub now (vz attr)) (vw attr) in
  let delta := smootherstep d in
  mix (vx attr) (vy attr) delta.

End Shader32.

(** ** Values shared with the collaborators *)

(** [sprite-types.ts]: a point and a colour. *)
Module SpriteTypes.
Record Position : Type := MkPosition { x : Q; y : Q }.
Record Color : Type := MkColor { r : Q; g : Q; b : Q; a : Q }.
End SpriteTypes.

(** [TxView]: the handle of one sprite. A value stands for one object of
    the scene; [oid] tells two objects with equal fields apart, so that
    JavaScript's identity [===] is equality of values. *)
Record TxView : Type := MkTxView { oid : nat; txid : string; bigintFlags : Z }.

#[global] Instance TxView_eq_dec : EqDecision TxView.
Proof. solve_decision. Defined.

(** [TransactionStripped], with the fields the component reads. *)
Record TransactionStripped : Type := MkTransactionStripped {
  stripped_txid : string;
  flags : Z
}.

(** A slot declared [TxView | void]. *)
Inductive Ref : Type :=
| Undefined
| Null
| Obj (tx : TxView).

#[global] Instance Ref_eq_dec : EqDecision Ref.
Proof. solve_decision. Defined.

(** Truthiness of a slot, [a || b], and [a === b]. *)
Definition truthy (v : Ref) : bool :=
  match v with Obj _ => true | _ => false end.
Definition or_ref (v1 v2 : Ref) : Ref := if truthy v1 then v1 else v2.
Definition strict_eq (v1 v2 : Ref) : bool := bool_decide (v1 = v2).

(** Truthiness of a string and of a [bigint | null]: the empty string,
    [null] and [0n] are falsy. *)
Definition truthy_string (s : string) : bool := negb (String.eqb s "").
Definition truthy_bigint (v : option Z) : bool :=
  match v with Some n => negb (n =? 0)%Z | None => false end.

(** [hoverTx ? hoverTx.txid : null] *)
Definition txid_or_null (v : Ref) : option string :=
  match v with Obj tx => Some (txid tx) | _ => None end.

(** The palettes [defaultColorFunction] is called with: none given (its
    own defaults), or the four [unmatched...] palettes of this file. *)
Inductive Palettes : Type := DefaultPalettes | UnmatchedPalettes.

(** A colour function the component can hand to the scene: the closure
    built by [getFilterColorFunction(flags)], or a function of the host. *)
Inductive ColorFunction : Type :=
| FilterColorFunction (flags : Z)
| HostColorFunction (f : TxView -> SpriteTypes.Color).

(** [ActiveFilter], the argument of a filter gesture. *)
Record ActiveFilter : Type := MkActiveFilter {
  mode : string;
  filters : option (list string)
}.

(** What leaves the component: calls on the scene, calls on the GL
    context, and emissions on the three outputs. *)
Inductive Effect : Type :=
| SceneSetup (transactions : list TransactionStripped)
| SceneSetColorFunction (f : option ColorFunction)
| SceneSetHover (tx : TxView) (value : bool)
| SceneSetHighlight (tx : TxView) (value : bool)
| GlUniforms (now : Q)
| GlVertexAttribPointers
| GlBufferData
| GlDrawArrays
| TxClickEvent (tx : TxView) (keyModifier : bool)
| TxHoverEvent (hoverId : option string)
| ReadyEvent.

(** The scene, as far as the component reads it: the id index [txs], the
    horizon [animateUntil] and the hit test [getTxAt]. *)
Record BlockScene : Type := MkBlockScene {
  txs : gmap string TxView;
  animateUntil : Q;
  getTxAt : SpriteTypes.Position -> Ref
}.

(** [FastVertexArray]: the dirty flag and the length of [getVertexData()]. *)
Record FastVertexArray : Type := MkFastVertexArray {
  dirty : bool;
  vertexDataLength : nat
}.

(** The browser's pending callbacks. Handles are positive, hence truthy.
    Every animation frame callback of the component is [() => this.run()],
    every timer callback is [() => this.start()]; a timer keeps its delay. *)
Record Browser : Type := MkBrowser {
  nextHandle : positive;
  frames : list positive;
  timeouts : list (positive * Z)
}.

(** ** The component *)

Record Component : Type := MkComponent {
  canvas : bool;
  gl : bool;
  animationFrameRequest : option positive;
  animationHeartBeat : option positive;
  running : bool;
  scene : option BlockScene;
  hoverTx : Ref;
  selectedTx : Ref;
  highlightTx : Ref;
  mirrorTx : Ref;
  tooltipPosition : option SpriteTypes.Position;
  readyNextFrame : bool;
  searchText : option string;
  filtersAvailable : bool;
  activeFilterFlags : option Z;
  filterFlags : option Z;
  filterMode : string;
  overrideColors : option ColorFunction;
  vertexArray : FastVertexArray;
  devicePixelRatio : Q;
  window : Browser;
  log : list Effect
}.

(** Field assignments [this.f = v]: the record is taken apart once and
    rebuilt with the one field replaced. *)
Definition set_animationFrameRequest (v : option positive) (c : Component) : Component :=
  let 'MkComponent f1 f2 _ f4 f5 f6 f7 f8 f9 f10 f11 f12 f13 f14 f15 f16
      f17 f18 f19 f20 f21 f22 := c in
  MkComponent f1 f2 v f4 f5 f6 f7 f8 f9 f10 f11 f12 f13 f14 f15 f16 f17
    f18 f19 f20 f21 f22.

Definition set_animationHeartBeat (v : option positive) (c : Component) : Component :=
  let 'MkComponent f1 f2 f3 _ f5 f6 f7 f8 f9 f10 f11 f12 f13 f14 f15 f16
      f17 f18 f19 f20 f21 f22 := c in
  MkComponent f1 f2 f3 v f5 f6 f7 f8 f9 f10 f11 f12 f13 f14 f15 f16 f17
    f18 f19 f20 f21 f22.

Definition set_running (v : bool) (c : Component) : Component :=
  let 'MkComponent f1 f2 f3 f4 _ f6 f7 f8 f9 f10 f11 f12 f13 f14 f15 f16
      f17 f18 f19 f20 f21 f22 := c in
  MkComponent f1 f2 f3 f4 v f6 f7 f8 f9 f10 f11 f12 f13 f14 f15 f16 f17
    f18 f19 f20 f21 f22.

Definition set_scene (v : option BlockScene) (c : Component) : Component :=
  let 'MkComponent f1 f2 f3 f4 f5 _ f7 f8 f9 f10 f11 f12 f13 f14 f15 f16
      f17 f18 f19 f20 f21 f22 := c in
  MkComponent f1 f2 f3 f4 f5 v f7 f8 f9 f10 f11 f12 f13 f14 f15 f16 f17
    f18 f19 f20 f21 f22.

Definition set_hoverTx (v : Ref) (c : Component) : Component :=
  let 'MkComponent f1 f2 f3 f4 f5 f6 _ f8 f9 f10 f11 f12 f13 f14 f15 f16
      f17 f18 f19 f20 f21 f22 := c in
  MkComponent f1 f2 f3 f4 f5 f6 v f8 f9 f10 f11 f12 f13 f14 f15 f16 f17
    f18 f19 f20 f21 f22.

Definition set_selectedTx (v : Ref) (c : Component) : Component :=
  let 'MkComponent f1 f2 f3 f4 f5 f6 f7 _ f9 f10 f11 f12 f13 f14 f15 f16
      f17 f18 f19 f20 f21 f22 := c in
  MkComponent f1 f2 f3 f4 f5 f6 f7 v f9 f10 f11 f12 f13 f14 f15 f16 f17
    f18 f19 f20 f21 f22.

Definition set_highlightTx (v : Ref) (c : Component) : Component :=
  let 'MkComponent f1 f2 f3 f4 f5 f6 f7 f8 _ f10 f11 f12 f13 f14 f15 f16
      f17 f18 f19 f20 f21 f22 := c in
  MkComponent f1 f2 f3 f4 f5 f6 f7 f8 v f10 f11 f12 f13 f14 f15 f16 f17
    f18 f19 f20 f21 f22.

Definition set_mirrorTx (v : Ref) (c : Component) : Component :=
  let 'MkComponent f1 f2 f3 f4 f5 f6 f7 f8 f9 _ f11 f12 f13 f14 f15 f16
      f17 f18 f19 f20 f21 f22 := c in
  MkComponent f1 f2 f3 f4 f5 f6 f7 f8 f9 v f11 f12 f13 f14 f15 f16 f17 f18
    f19 f20 f21 f22.

Definition set_tooltipPosition (v : option SpriteTypes.Position) (c : Component) : Component :=
  let 'MkComponent f1 f2 f3 f4 f5 f6 f7 f8 f9 f10 _ f12 f13 f14 f15 f16
      f17 f18 f19 f20 f21 f22 := c in
  MkComponent f1 f2 f3 f4 f5 f6 f7 f8 f9 f10 v f12 f13 f14 f15 f16 f17 f18
    f19 f20 f21 f22.

Definition set_readyNextFrame (v : bool) (c : Component) : Component :=
  let 'MkComponent f1 f2 f3 f4 f5 f6 f7 f8 f9 f10 f11 _ f13 f14 f15 f16
      f17 f18 f19 f20 f21 f22 := c in
  MkComponent f1 f2 f3 f4 f5 f6 f7 f8 f9 f10 f11 v f13 f14 f15 f16 f17 f18
    f19 f20 f21 f22.

Definition set_searchText (v : option string) (c : Component) : Component :=
  let 'MkComponent f1 f2 f3 f4 f5 f6 f7 f8 f9 f10 f11 f12 _ f14 f15 f16
      f17 f18 f19 f20 f21 f22 := c in
  MkComponent f1 f2 f3 f4 f5 f6 f7 f8 f9 f10 f11 f12 v f14 f15 f16 f17 f18
    f19 f20 f21 f22.

Definition set_filtersAvailable (v : bool) (c : Component) : Component :=
  let 'MkComponent f1 f2 f3 f4 f5 f6 f7 f8 f9 f10 f11 f12 f13 _ f15 f16
      f17 f18 f19 f20 f21 f22 := c in
  MkComponent f1 f2 f3 f4 f5 f6 f7 f8 f9 f10 f11 f12 f13 v f15 f16 f17 f18
    f19 f20 f21 f22.

Definition set_activeFilterFlags (v : option Z) (c : Component) : Component :=
  let 'MkComponent f1 f2 f3 f4 f5 f6 f7 f8 f9 f10 f11 f12 f13 f14 _ f16
      f17 f18 f19 f20 f21 f22 := c in
  MkComponent f1 f2 f3 f4 f5 f6 f7 f8 f9 f10 f11 f12 f13 f14 v f16 f17 f18
    f19 f20 f21 f22.

Definition set_filterMode (v : string) (c : Component) : Component :=
  let 'MkComponent f1 f2 f3 f4 f5 f6 f7 f8 f9 f10 f11 f12 f13 f14 f15 f16
      _ f18 f19 f20 f21 f22 := c in
  MkComponent f1 f2 f3 f4 f5 f6 f7 f8 f9 f10 f11 f12 f13 f14 f15 f16 v f18
    f19 f20 f21 f22.

Definition set_vertexArray (v : FastVertexArray) (c : Component) : Component :=
  let 'MkComponent f1 f2 f3 f4 f5 f6 f7 f8 f9 f10 f11 f12 f13 f14 f15 f16
      f17 f18 _ f20 f21 f22 := c in
  MkComponent f1 f2 f3 f4 f5 f6 f7 f8 f9 f10 f11 f12 f13 f14 f15 f16 f17
    f18 v f20 f21 f22.

Definition set_window (v : Browser) (c : Component) : Component :=
  let 'MkComponent f1 f2 f3 f4 f5 f6 f7 f8 f9 f10 f11 f12 f13 f14 f15 f16
      f17 f18 f19 f20 _ f22 := c in
  MkComponent f1 f2 f3 f4 f5 f6 f7 f8 f9 f10 f11 f12 f13 f14 f15 f16 f17
    f18 f19 f20 v f22.

Definition set_log (v : list Effect) (c : Component) : Component :=
  let 'MkComponent f1 f2 f3 f4 f5 f6 f7 f8 f9 f10 f11 f12 f13 f14 f15 f16
      f17 f18 f19 f20 f21 _ := c in
  MkComponent f1 f2 f3 f4 f5 f6 f7 f8 f9 f10 f11 f12 f13 f14 f15 f16 f17
    f18 f19 f20 f21 v.

(** A DOM pointer event, with what the handlers read. [targetIsCanvas] is
    [event.target === this.canvas.nativeElement], [targetInRoot] is
    [this.elRef.nativeElement.contains(event.target)]. *)
Record PointerEvent : Type := MkPointerEvent {
  targetIsCanvas : bool;
  targetInRoot : bool;
  pointerType : string;
  offsetX : Q;
  offsetY : Q;
  shiftKey : bool;
  ctrlKey : bool;
  metaKey : bool;
  which : Z;
  button : Z
}.

(** How a method ends: normally, or by a JavaScript [TypeError] (a property
    read on [undefined]). *)
Inductive Completion : Type :=
| Normal (c : Component)
| ThrowTypeError.

(** *** Outputs and browser calls *)

Definition emit (e : Effect) (c : Component) : Component :=
  set_log (log c ++ [e]) c.

Definition cancelAnimationFrame (h : positive) (c : Component) : Component :=
  let w := window c in
  set_window
    (MkBrowser (nextHandle w) (filter (fun h' => h' ≠ h) (frames w))
       (timeouts w)) c.

Definition requestAnimationFrame (c : Component) : positive * Component :=
  let w := window c in
  (nextHandle w,
   set_window
     (MkBrowser (Pos.succ (nextHandle w)) (frames w ++ [nextHandle w])
        (timeouts w)) c).

Definition clearTimeout (h : positive) (c : Component) : Component :=
  let w := window c in
  set_window
    (MkBrowser (nextHandle w) (frames w)
       (filter (fun t => t.1 ≠ h) (timeouts w))) c.

Definition setTimeout (delay : Z) (c : Component) : positive * Component :=
  let w := window c in
  (nextHandle w,
   set_window
     (MkBrowser (Pos.succ (nextHandle w)) (frames w)
        (timeouts w ++ [(nextHandle w, delay)])) c).

(** *** The frame scheduler *)

(** [doRun()] *)
Definition doRun (c : Component) : Component :=
  let c :=
    match animationFrameRequest c with
    | Some h => cancelAnimationFrame h c
    | None => c
    end in
  let '(h, c) := requestAnimationFrame c in
  set_animationFrameRequest (Some h) c.

(** [start()]; [ngZone.runOutsideAngular] calls its argument at once. *)
Definition start (c : Component) : Component :=
  let c := set_running true c in
  doRun c.

(** The timestamp a tick works with: [if (!now) now = performance.now()].
    [clock] is what [performance.now()] answers. *)
Definition tickTime (clock : Q) (now : option Q) : Q :=
  match now with
  | Some t => if Qeq_bool t 0 then clock else t
  | None => clock
  end.

(** The drawing half of [run]: uniforms, upload when dirty, draw, and the
    one-shot ready notification. *)
Definition draw (now : Q) (c : Component) : Component :=
  match scene c with
  | Some _ =>
    if gl c then
      let c := emit (GlUniforms now) c in
      let n := vertexDataLength (vertexArray c) in
      let c :=
        if dirty (vertexArray c) then
          let c := emit GlVertexAttribPointers c in
          let c :=
            if (0 <? n)%nat then emit GlDrawArrays (emit GlBufferData c)
            else c in
          set_vertexArray (MkFastVertexArray false n) c
        else
          if (0 <? n)%nat then emit GlDrawArrays c else c in
      if readyNextFrame c then
        let c := set_readyNextFrame false c in
        emit ReadyEvent c
      else c
    else c
  | None => c
  end.

(** The condition of the [LOOP] part of [run]:
    [this.running && this.scene && now <= (this.scene.animateUntil + 500)]. *)
Definition keepsLooping (now : Q) (c : Component) : bool :=
  running c &&
  match scene c with
  | Some sc => Qle_bool now (animateUntil sc + 500)
  | None => false
  end.

(** The [LOOP] part of [run]. *)
Definition loop (now : Q) (c : Component) : Component :=
  if keepsLooping now c then doRun c
  else
    let c :=
      match animationHeartBeat c with
      | Some h => clearTimeout h c
      | None => c
      end in
    let '(h, c) := setTimeout 1000 c in
    set_animationHeartBeat (Some h) c.

(** [run(now?)] *)
Definition run (clock : Q) (now : option Q) (c : Component) : Component :=
  let now := tickTime clock now in
  let c := draw now c in
  loop now c.

(** The browser fires the animation frame [h]: the callback is
    [() => this.run()]. *)
Definition fireFrame (clock : Q) (h : positive) (c : Component) : Component :=
  if bool_decide (h ∈ frames (window c)) then
    run clock None (cancelAnimationFrame h c)
  else c.

(** The browser fires the timer [h]: the callback is [() => this.start()]. *)
Definition fireTimeout (h : positive) (c : Component) : Component :=
  if bool_decide (h ∈ (timeouts (window c)).*1) then
    start (clearTimeout h c)
  else c.

(** *** The filter colour function *)

Section FilterColor.

(** [defaultColorFunction] of [utils.ts], applied to a transaction and a
    choice of palettes. *)
Variable defaultColorFunction : TxView -> Palettes -> SpriteTypes.Color.

(** The closure returned by [getFilterColorFunction(flags)], applied to
    [tx]; [filterMode] is [this.filterMode] when the closure is called. *)
Definition getFilterColorFunction
    (filterMode : string) (flags : Z) (tx : TxView) : SpriteTypes.Color :=
  if (String.eqb filterMode "and"
        && (Z.land (bigintFlags tx) flags =? flags)%Z)
     || (String.eqb filterMode "or"
           && ((flags =? 0)%Z || (0 <? Z.land (bigintFlags tx) flags)%Z))
  then defaultColorFunction tx DefaultPalettes
  else defaultColorFunction tx UnmatchedPalettes.

(** Calling a colour function handed to the scene. *)
Definition callColorFunction
    (c : Component) (f : ColorFunction) (tx : TxView) : SpriteTypes.Color :=
  match f with
  | FilterColorFunction flags => getFilterColorFunction (filterMode c) flags tx
  | HostColorFunction h => h tx
  end.

End FilterColor.

(** [getColorFunction()]; [None] is JavaScript's [null]. *)
Definition getColorFunction (c : Component) : option ColorFunction :=
  if truthy_bigint (filterFlags c) then
    FilterColorFunction <$> filterFlags c
  else if truthy_bigint (activeFilterFlags c) then
    FilterColorFunction <$> activeFilterFlags c
  else
    overrideColors c.

(** *** The interaction layer *)

(** [onTxHover(hoverId)] *)
Definition onTxHover (hoverId : option string) (c : Component) : Component :=
  emit (TxHoverEvent hoverId) c.

(** [this.scene.setHover(tx, value); this.start();] *)
Definition sceneSetHover (tx : TxView) (value : bool) (c : Component)
    : Component :=
  start (emit (SceneSetHover tx value) c).

(** [this.scene.setHighlight(tx, value); this.start();] *)
Definition sceneSetHighlight (tx : TxView) (value : bool) (c : Component)
    : Component :=
  start (emit (SceneSetHighlight tx value) c).

(** [setPreviewTx(cssX, cssY, clicked)] *)
Definition setPreviewTx (cssX cssY : Q) (clicked : bool) (c : Component)
    : Component :=
  let x := cssX * devicePixelRatio c in
  let y := cssY * devicePixelRatio c in
  match scene c with
  | Some sc =>
    if negb (truthy (selectedTx c)) || clicked then
      let c := set_tooltipPosition (Some (SpriteTypes.MkPosition cssX cssY)) c in
      let selected := getTxAt sc (SpriteTypes.MkPosition x y) in
      let currentPreview := or_ref (selectedTx c) (hoverTx c) in
      if negb (strict_eq selected currentPreview) then
        let c :=
          match currentPreview with
          | Obj p => sceneSetHover p false c
          | _ => c
          end in
        match selected with
        | Obj s =>
          let c := sceneSetHover s true c in
          if clicked then set_selectedTx selected c
          else
            let c := set_hoverTx selected c in
            onTxHover (txid_or_null (hoverTx c)) c
        | _ =>
          let c := if clicked then set_selectedTx Null c else c in
          let c := set_hoverTx Null c in
          onTxHover None c
        end
      else if clicked then
        if strict_eq selected (selectedTx c) then
          let c := set_hoverTx (selectedTx c) c in
          let c := set_selectedTx Null c in
          onTxHover (txid_or_null (hoverTx c)) c
        else set_selectedTx selected c
      else c
    else c
  | None => c
  end.

(** [onTxClick(cssX, cssY, keyModifier)] *)
Definition onTxClick (cssX cssY : Q) (keyModifier : bool) (c : Component)
    : Component :=
  match scene c with
  | Some sc =>
    let x := cssX * devicePixelRatio c in
    let y := cssY * devicePixelRatio c in
    match getTxAt sc (SpriteTypes.MkPosition x y) with
    | Obj selected =>
      if truthy_string (txid selected)
      then emit (TxClickEvent selected keyModifier) c
      else c
    | _ => c
    end
  | None => c
  end.

(** [onClick(event)], the [pointerup] listener. *)
Definition onClick (event : PointerEvent) (c : Component) : Component :=
  if negb (canvas c) then c
  else if targetIsCanvas event && String.eqb (pointerType event) "touch" then
    setPreviewTx (offsetX event) (offsetY event) true c
  else if targetIsCanvas event then
    let keyMod := shiftKey event || ctrlKey event || metaKey event in
    let middleClick := (which event =? 2)%Z || (button event =? 1)%Z in
    onTxClick (offsetX event) (offsetY event) (keyMod || middleClick) c
  else c.

(** [onPointerLeave(event)], the [pointerleave] listener. *)
Definition onPointerLeave (event : PointerEvent) (c : Component) : Component :=
  if negb (String.eqb (pointerType event) "touch") then
    setPreviewTx (-1) (-1) true c
  else c.

(** [onPointerMove(event)], the [pointermove] listener. *)
Definition onPointerMove (event : PointerEvent) (c : Component) : Component :=
  if negb (canvas c) then c
  else if targetIsCanvas event then
    setPreviewTx (offsetX event) (offsetY event) false c
  else onPointerLeave event c.

(** [clickAway(event)], the [document:click] listener. *)
Definition clickAway (event : PointerEvent) (c : Component) : Component :=
  if negb (targetInRoot event) then
    let currentPreview := or_ref (selectedTx c) (hoverTx c) in
    let c :=
      match currentPreview, scene c with
      | Obj p, Some _ => sceneSetHover p false c
      | _, _ => c
      end in
    let c := set_hoverTx Null c in
    let c := set_selectedTx Null c in
    onTxHover None c
  else c.

(** The names every JavaScript object inherits from [Object.prototype]:
    the property read [txs[key]] finds them although [txs] does not index
    them. The index [txs] of the model holds own keys only, so [txs sc !! s]
    is the read [this.scene.txs[s]] for every [s] outside this list;
    transaction ids (64 characters) are outside it. *)
Definition objectPrototypeKeys : list string :=
  [ "constructor"; "__defineGetter__"; "__defineSetter__"; "hasOwnProperty";
    "__lookupGetter__"; "__lookupSetter__"; "isPrototypeOf";
    "propertyIsEnumerable"; "toString"; "valueOf"; "__proto__";
    "toLocaleString" ].

(** [setMirror(txid)]. [this.scene] is read without a guard: on a
    component whose scene is [undefined] the read of [.setHover] or
    [.txs] raises a [TypeError]. *)
Definition setMirror (id : option string) (c : Component) : Completion :=
  let step1 :=
    match mirrorTx c with
    | Obj m =>
      match scene c with
      | Some _ => Normal (sceneSetHover m false c)
      | None => ThrowTypeError
      end
    | _ => Normal c
    end in
  match step1 with
  | ThrowTypeError => ThrowTypeError
  | Normal c =>
    match id with
    | Some s =>
      if truthy_string s then
        match scene c with
        | Some sc =>
          match txs sc !! s with
          | Some tx =>
            let c := set_mirrorTx (Obj tx) c in
            Normal (sceneSetHover tx true c)
          | None => Normal c
          end
        | None => ThrowTypeError
        end
      else Normal c
    | None => Normal c
    end
  end.

(** [this.highlightTx.txid !== this.searchText] *)
Definition differs_from_search (tx : TxView) (c : Component) : bool :=
  negb (bool_decide (searchText c = Some (txid tx))).

(** [updateSearchHighlight()] *)
Definition updateSearchHighlight (c : Component) : Component :=
  let unset :=
    match highlightTx c, scene c with
    | Obj h, Some _ =>
      if differs_from_search h c then Some h else None
    | _, _ => None
    end in
  match unset with
  | Some h => sceneSetHighlight h false c
  | None =>
    match scene c, searchText c with
    | Some sc, Some s =>
      if truthy_string s && (String.length s =? 64)%nat then
        match txs sc !! s with
        | Some tx =>
          let c := set_highlightTx (Obj tx) c in
          sceneSetHighlight tx true c
        | None => set_highlightTx Undefined c
        end
      else c
    | _, _ => c
    end
  end.

(** The [searchText$] subscription of the constructor:
    [this.searchText = text; this.updateSearchHighlight();] *)
Definition onSearchText (text : string) (c : Component) : Component :=
  let c := set_searchText (Some text) c in
  updateSearchHighlight c.

(** *** Filters and set-up *)

Section Topology.

(** [toFlags] of [filters.utils.ts] and the scene's own [setup], which
    rebuilds the index, the layout and the horizon. *)
Variable toFlags : list string -> Z.
Variable sceneSetup : list TransactionStripped -> BlockScene -> BlockScene.

(** [setFilterFlags(goggle?)] *)
Definition setFilterFlags (goggle : option ActiveFilter) (c : Component)
    : Component :=
  let c :=
    match goggle with
    | Some gg => if truthy_string (mode gg) then set_filterMode (mode gg) c else c
    | None => c
    end in
  let c :=
    match goggle ≫= filters with
    | Some fs => set_activeFilterFlags (Some (toFlags fs)) c
    | None => set_activeFilterFlags (filterFlags c) c
    end in
  let c :=
    match scene c with
    | Some _ =>
      match activeFilterFlags c, filtersAvailable c with
      | Some fl, true =>
        emit (SceneSetColorFunction (Some (FilterColorFunction fl))) c
      | _, _ => emit (SceneSetColorFunction (overrideColors c)) c
      end
    | None => c
    end in
  start c.

(** [setup(transactions)] *)
Definition setup (transactions : list TransactionStripped) (c : Component)
    : Component :=
  let available :=
    fold_left (fun flagSet tx => flagSet || (0 <? flags tx)%Z)
      transactions false in
  let c :=
    if negb (Bool.eqb available (filtersAvailable c))
    then setFilterFlags None c
    else c in
  let c := set_filtersAvailable available c in
  match scene c with
  | Some sc =>
    let c := emit (SceneSetup transactions) c in
    let c := set_scene (Some (sceneSetup transactions sc)) c in
    let c := set_readyNextFrame true c in
    let c := start c in
    updateSearchHighlight c
  | None => c
  end.

End Topology.

(** The colour function the scene was last handed by [setColorFunction],
    read off the log; [None] when no such call was made. *)
Definition lastColorFunction (l : list Effect) : option (option ColorFunction) :=
  fold_left
    (fun acc e => match e with SceneSetColorFunction f => Some f | _ => acc end)
    l None.

(** The [txClickEvent] emissions in a log. *)
Definition clickEvents (l : list Effect) : list Effect :=
  List.filter (fun e => match e with TxClickEvent _ _ => true | _ => false end) l.

(** ** The rest of the shader program *)

Module ShaderProgram.
Import Shader.

Record vec2 : Type := Vec2 { px : Q; py : Q }.

(** The attributes of one vertex, in the order of the [attribute]
    declarations. *)
Record Vertex : Type := MkVertex {
  offset : vec2;
  posX : vec4;
  posY : vec4;
  posR : vec4;
  colR : vec4;
  colG : vec4;
  colB : vec4;
  colA : vec4
}.

(** What the vertex shader writes: the [xy] of [gl_Position] (its [zw] is
    the constant [(1.0, 1.0)]) and the varying [vColor]. The position is
    [None] when a component of [screenSize] is zero: [2.0 / 0.0] is no
    rational number (the shader gets an infinity). *)
Record VertexOut : Type := MkVertexOut {
  gl_Position : option vec2;
  vColor : vec4
}.

(** [void main()] of the vertex shader, with the uniforms [screenSize] and
    [now] as arguments, read in exact rationals. *)
Definition main (screenSize : vec2) (now : Q) (v : Vertex) : VertexOut :=
  let screenTransform :=
    if Qeq_bool (px screenSize) 0 || Qeq_bool (py screenSize) 0 then None
    else Some (Vec4 (2 / px screenSize) (2 / py screenSize) (-1) (-1)) in
  let radius := interpolateAttribute now (posR v) in
  let position :=
    Vec2 (interpolateAttribute now (posX v) + radius * px (offset v))
         (interpolateAttribute now (posY v) + radius * py (offset v)) in
  let red := interpolateAttribute now (colR v) in
  let green := interpolateAttribute now (colG v) in
  let blue := interpolateAttribute now (colB v) in
  let alpha := interpolateAttribute now (colA v) in
  MkVertexOut
    (match screenTransform with
     | Some screenTransform =>
       Some (Vec2 (px position * vx screenTransform + vz screenTransform)
                  (py position * vy screenTransform + vw screenTransform))
     | None => None
     end)
    (Vec4 red green blue alpha).

(** [void main()] of the fragment shader: [gl_FragColor = vColor], then
    [gl_FragColor.rgb *= gl_FragColor.a]. *)
Definition fragment (vColor : vec4) : vec4 :=
  Vec4 (vx vColor * vw vColor) (vy vColor * vw vColor)
       (vz vColor * vw vColor) (vw vColor).

End ShaderProgram.

(** ** The vertex attribute table *)

Module Attribs.

(** One entry of [attribs]; [pointer] is filled in by [initCanvas] and is
    left out. *)
Record Attrib : Type := MkAttrib {
  key : string;
  type : string;
  count : Z;
  offset : Z
}.

(** [const attribs = {...}], in key order. *)
Definition attribs : list Attrib :=
  [ MkAttrib "offset" "FLOAT" 2 0;
    MkAttrib "posX" "FLOAT" 4 0;
    MkAttrib "posY" "FLOAT" 4 0;
    MkAttrib "posR" "FLOAT" 4 0;
    MkAttrib "colR" "FLOAT" 4 0;
    MkAttrib "colG" "FLOAT" 4 0;
    MkAttrib "colB" "FLOAT" 4 0;
    MkAttrib "colA" "FLOAT" 4 0 ].

(** [Object.values(table).reduce((total, attrib) => total + attrib.count * 4, 0)] *)
Definition strideOf (table : list Attrib) : Z :=
  fold_left (fun total attrib => (total + count attrib * 4)%Z) table 0%Z.

(** The loop [for (let i = 0, offset = 0; ...)]: each attribute gets the
    running offset, which then grows by [count * 4]. *)
Fixpoint assignOffsets (running : Z) (table : list Attrib) : list Attrib :=
  match table with
  | [] => []
  | attrib :: rest =>
    MkAttrib (key attrib) (type attrib) (count attrib) running
    :: assignOffsets (running + count attrib * 4)%Z rest
  end.

(** The table and the stride as the module leaves them once loaded. *)
Definition stride : Z := strideOf attribs.
Definition layout : list Attrib := assignOffsets 0 attribs.

End Attribs.

(** ** [RelativeUrlPipe] *)

Module RelativeUrlPipe.

(** The parts of [StateService] the pipe reads. *)
Record Env : Type := MkEnv { DEFAULT_NETWORK : string; BASE_MODULE : string }.
Record StateService : Type := MkStateService { network : string; env : Env }.

(** [transform(value, swapNetwork?)] *)
Definition transform
    (stateService : StateService) (value : string)
    (swapNetwork : option string) : string :=
  let network :=
    match swapNetwork with
    | Some s => if truthy_string s then s else network stateService
    | None => network stateService
    end in
  let network :=
    if String.eqb network "mainnet"
       || String.eqb network (DEFAULT_NETWORK (env stateService))
    then "" else network in
  let network :=
    if String.eqb (BASE_MODULE (env stateService)) "liquid"
       && String.eqb network "liquidtestnet"
    then "testnet"
    else if negb (String.eqb (BASE_MODULE (env stateService)) "mempool")
    then ""
    else network in
  ((if truthy_string network then "/" ++ network else "") ++ value)%string.

End RelativeUrlPipe.

(** ** The remaining operations of the component *)

(** [ngOnDestroy()]; the listeners it removes are not part of the model.
    [clearTimeout(undefined)] does nothing. *)
Definition ngOnDestroy (c : Component) : Component :=
  match animationFrameRequest c with
  | Some h =>
    let c := cancelAnimationFrame h c in
    match animationHeartBeat c with
    | Some t => clearTimeout t c
    | None => c
    end
  | None => c
  end.

(** One element of the [change] argument of [update]. *)
Record RateChange : Type := MkRateChange {
  change_txid : string;
  rate : option Q;
  acc : option bool
}.

(** The inputs [ngOnChanges] reads that are not fields of [Component]. *)
Record HostInputs : Type := MkHostInputs {
  orientation : string;
  flip : bool;
  mirrorTxid : option string;
  auditHighlighting : bool
}.

(** The names of the [@Input()] properties, the only keys Angular puts in
    the [changes] argument of [ngOnChanges]. *)
Definition declaredInputs : list string :=
  [ "isLoading"; "resolution"; "autofit"; "blockLimit"; "orientation";
    "flip"; "animationDuration"; "animationOffset"; "disableSpinner";
    "mirrorTxid"; "unavailable"; "auditHighlighting"; "showFilters";
    "excludeFilters"; "filterFlags"; "filterMode"; "blockConversion";
    "overrideColors" ].

(** [changes.key], for a [changes] object given by its keys. *)
Definition changed (key : string) (changes : list string) : bool :=
  bool_decide (key ∈ changes).

Section SceneCalls.

(** The scene's own mutators, each by what it makes of the scene. *)
Variable toFlags : list string -> Z.
Variable sceneSetup : list TransactionStripped -> BlockScene -> BlockScene.
Variable sceneEnter :
  list TransactionStripped -> string -> BlockScene -> BlockScene.
Variable sceneExit : string -> BlockScene -> BlockScene.
Variable sceneReplace :
  list TransactionStripped -> string -> bool -> option Q ->
  BlockScene -> BlockScene.
Variable sceneUpdate :
  list TransactionStripped -> list string -> list RateChange -> string ->
  bool -> BlockScene -> BlockScene.
Variable sceneDestroy : BlockScene -> BlockScene.
Variable sceneSetHighlighting : bool -> BlockScene -> BlockScene.
Variable sceneSetOrientation : string -> bool -> BlockScene -> BlockScene.

(** The shared tail of [enter], [exit], [replace] and [update]:
    [this.start(); this.updateSearchHighlight();] on the mutated scene. *)
Definition afterMutation (sc : BlockScene) (c : Component) : Component :=
  let c := set_scene (Some sc) c in
  let c := start c in
  updateSearchHighlight c.

(** [enter(transactions, direction)] *)
Definition enter
    (transactions : list TransactionStripped) (direction : string)
    (c : Component) : Component :=
  match scene c with
  | Some sc => afterMutation (sceneEnter transactions direction sc) c
  | None => c
  end.

(** [exit(direction)] *)
Definition exit (direction : string) (c : Component) : Component :=
  match scene c with
  | Some sc => afterMutation (sceneExit direction sc) c
  | None => c
  end.

(** [replace(transactions, direction, sort = true, startTime?)] *)
Definition replace
    (transactions : option (list TransactionStripped)) (direction : string)
    (sort : option bool) (startTime : option Q) (c : Component) : Component :=
  match scene c with
  | Some sc =>
    afterMutation
      (sceneReplace (default [] transactions) direction (default true sort)
         startTime sc) c
  | None => c
  end.

(** [update(add, remove, change, direction = 'left', resetLayout = false)] *)
Definition update
    (add : list TransactionStripped) (remove : list string)
    (change : list RateChange) (direction : option string)
    (resetLayout : option bool) (c : Component) : Component :=
  match scene c with
  | Some sc =>
    afterMutation
      (sceneUpdate add remove change (default "left" direction)
         (default false resetLayout) sc) c
  | None => c
  end.

(** [clear(direction)] *)
Definition clear (direction : string) (c : Component) : Component :=
  let c := exit direction c in
  let c := set_hoverTx Null c in
  let c := set_selectedTx Null c in
  let c := onTxHover None c in
  start c.

(** [destroy()] *)
Definition destroy (c : Component) : Component :=
  match scene c with
  | Some sc => start (set_scene (Some (sceneDestroy sc)) c)
  | None => c
  end.

(** [setHighlightingEnabled(enabled)] *)
Definition setHighlightingEnabled (enabled : bool) (c : Component)
    : Component :=
  match scene c with
  | Some sc => start (set_scene (Some (sceneSetHighlighting enabled sc)) c)
  | None => c
  end.

(** [ngOnChanges(changes)]. Angular has stored the new input values before
    the call, so [filterFlags], [filterMode] and [overrideColors] are read
    from the component and the others from [inputs]. *)
Definition ngOnChanges
    (inputs : HostInputs) (changes : list string) (c : Component)
    : Completion :=
  let c :=
    if changed "orientation" changes || changed "flip" changes then
      match scene c with
      | Some sc =>
        set_scene
          (Some (sceneSetOrientation (orientation inputs) (flip inputs) sc)) c
      | None => c
      end
    else c in
  let mirrored :=
    if changed "mirrorTxid" changes then setMirror (mirrorTxid inputs) c
    else Normal c in
  match mirrored with
  | ThrowTypeError => ThrowTypeError
  | Normal c =>
    let c :=
      if changed "auditHighlighting" changes
      then setHighlightingEnabled (auditHighlighting inputs) c
      else c in
    let c :=
      if changed "overrideColor" changes
         && bool_decide (is_Some (scene c))
      then emit (SceneSetColorFunction (overrideColors c)) c
      else c in
    let c :=
      if changed "filterFlags" changes || changed "showFilters" changes
         || changed "filterMode" changes
      then setFilterFlags toFlags None c
      else c in
    Normal c
  end.

(** Everything that can happen to a built component: a call of the host,
    a DOM event, or a callback of the browser. *)
Inductive Op : Type :=
| Start
| FireFrame (clock : Q) (h : positive)
| FireTimeout (h : positive)
| PointerUp (event : PointerEvent)
| PointerMove (event : PointerEvent)
| PointerLeave (event : PointerEvent)
| DocumentClick (event : PointerEvent)
| SetMirror (id : option string)
| SearchText (text : string)
| SetFilterFlags (goggle : option ActiveFilter)
| Setup (transactions : list TransactionStripped)
| Enter (transactions : list TransactionStripped) (direction : string)
| Exit (direction : string)
| Replace (transactions : option (list TransactionStripped))
    (direction : string) (sort : option bool) (startTime : option Q)
| Update (add : list TransactionStripped) (remove : list string)
    (change : list RateChange) (direction : option string)
    (resetLayout : option bool)
| Clear (direction : string)
| Destroy
| SetHighlightingEnabled (enabled : bool)
| Changes (inputs : HostInputs) (changes : list string).

Definition perform (op : Op) (c : Component) : Completion :=
  match op with
  | Start => Normal (start c)
  | FireFrame clock h => Normal (fireFrame clock h c)
  | FireTimeout h => Normal (fireTimeout h c)
  | PointerUp event => Normal (onClick event c)
  | PointerMove event => Normal (onPointerMove event c)
  | PointerLeave event => Normal (onPointerLeave event c)
  | DocumentClick event => Normal (clickAway event c)
  | SetMirror id => setMirror id c
  | SearchText text => Normal (onSearchText text c)
  | SetFilterFlags goggle => Normal (setFilterFlags toFlags goggle c)
  | Setup transactions => Normal (setup toFlags sceneSetup transactions c)
  | Enter transactions direction => Normal (enter transactions direction c)
  | Exit direction => Normal (exit direction c)
  | Replace transactions direction sort startTime =>
    Normal (replace transactions direction sort startTime c)
  | Update add remove change direction resetLayout =>
    Normal (update add remove change direction resetLayout c)
  | Clear direction => Normal (clear direction c)
  | Destroy => Normal (destroy c)
  | SetHighlightingEnabled enabled => Normal (setHighlightingEnabled enabled c)
  | Changes inputs changes => ngOnChanges inputs changes c
  end.

(** A run of operations, stopping at the first one that throws. *)
Fixpoint performAll (ops : list Op) (c : Component) : Completion :=
  match ops with
  | [] => Normal c
  | op :: ops =>
    match perform op c with
    | Normal c => performAll ops c
    | ThrowTypeError => ThrowTypeError
    end
  end.

End SceneCalls.

(** ** Observations on a state and on a log *)

(** The scheduler's part of a component. *)
Definition timers (c : Component)
    : option positive * option positive * Browser :=
  (animationFrameRequest c, animationHeartBeat c, window c).

(** The pending callbacks are the ones the component holds: at most one
    frame, which is [animationFrameRequest], and at most one timer, which
    is [animationHeartBeat] and is pending only once a frame was
    requested. *)
Definition timersHeld (t : option positive * option positive * Browser)
    : bool :=
  let '(request, heartBeat, w) := t in
  match frames w, request with
  | [], _ => true
  | [h], Some h' => bool_decide (h = h')
  | _, _ => false
  end
  &&
  match timeouts w, heartBeat, request with
  | [], _, _ => true
  | [(t, _)], Some t', Some _ => bool_decide (t = t')
  | _, _, _ => false
  end.

(** Whether the scene's hover highlight is on [tx] after the calls in a
    log: the value of the last [setHover(tx, _)]. *)
Definition hoverFlag (l : list Effect) (tx : TxView) : bool :=
  fold_left
    (fun flag e =>
       match e with
       | SceneSetHover tx' value => if bool_decide (tx' = tx) then value else flag
       | _ => flag
       end)
    l false.

(** The [readyEvent] emissions and the buffer uploads in a log. *)
Definition readyEvents (l : list Effect) : list Effect :=
  List.filter (fun e => match e with ReadyEvent => true | _ => false end) l.
Definition uploads (l : list Effect) : list Effect :=
  List.filter (fun e => match e with GlBufferData => true | _ => false end) l.
Definition glCalls (l : list Effect) : list Effect :=
  List.filter
    (fun e =>
       match e with
       | GlUniforms _ | GlVertexAttribPointers | GlBufferData | GlDrawArrays =>
         true
       | _ => false
       end) l.
Definition colorFunctionCalls (l : list Effect) : list Effect :=
  List.filter
    (fun e => match e with SceneSetColorFunction _ => true | _ => false end) l.
Definition highlightsSet (l : list Effect) : list Effect :=
  List.filter
    (fun e => match e with SceneSetHighlight _ true => true | _ => false end) l.

(** The [drawArrays] calls in a log, and whether a tick draws: the test
    [this.scene && this.gl] of [run]. *)
Definition drawCalls (l : list Effect) : list Effect :=
  List.filter (fun e => match e with GlDrawArrays => true | _ => false end) l.
Definition draws (c : Component) : bool :=
  match scene c with Some _ => gl c | None => false end.

(** A run of ticks, each [run()] with [performance.now()] answering the
    given timestamp. *)
Definition ticks (nows : list Q) (c : Component) : Component :=
  fold_left (fun c now => run now None c) nows c.

(** The four pointer listeners, and a run of pointer events. *)
Inductive Listener : Type :=
| OnPointerUp
| OnPointerMove
| OnPointerLeave
| OnDocumentClick.

Definition listen (l : Listener) (event : PointerEvent) (c : Component)
    : Component :=
  match l with
  | OnPointerUp => onClick event c
  | OnPointerMove => onPointerMove event c
  | OnPointerLeave => onPointerLeave event c
  | OnDocumentClick => clickAway event c
  end.

Definition listenAll (events : list (Listener * PointerEvent)) (c : Component)
    : Component :=
  fold_left (fun c le => listen le.1 le.2 c) events c.

(** The transaction shown as the current preview: [selectedTx || hoverTx]. *)
Definition currentPreview (c : Component) : Ref :=
  or_ref (selectedTx c) (hoverTx c).

(** The scene's hover highlight is on the current preview and on nothing
    else. *)
Definition hoverShown (c : Component) : Prop :=
  ∀ tx, hoverFlag (log c) tx = true ↔ currentPreview c = Obj tx.

(** The operations whose whole body is guarded by [if (this.scene)]. *)
Definition guardedByScene (op : Op) : bool :=
  match op with
  | PointerUp _ | PointerMove _ | PointerLeave _ | Enter _ _ | Exit _
  | Replace _ _ _ _ | Update _ _ _ _ _ | Destroy | SetHighlightingEnabled _ =>
    true
  | _ => false
  end.

(** ** Sample values *)

(** A stand-in for [defaultColorFunction] that tells the two palette
    choices apart. *)
Definition paletteProbe (_ : TxView) (p : Palettes) : SpriteTypes.Color :=
  match p with
  | DefaultPalettes => SpriteTypes.MkColor 1 1 1 1
  | UnmatchedPalettes => SpriteTypes.MkColor 1 1 1 (1 # 5)
  end.

(** Two transactions with well-formed (64-character) ids. *)
Definition idA : string :=
  "aaaaaaaaaaaaaaaaaaaaaaaaaaaaaaaaaaaaaaaaaaaaaaaaaaaaaaaaaaaaaaaa".
Definition idB : string :=
  "bbbbbbbbbbbbbbbbbbbbbbbbbbbbbbbbbbbbbbbbbbbbbbbbbbbbbbbbbbbbbbbb".
Definition txA : TxView := MkTxView 1 idA 2.
Definition txB : TxView := MkTxView 2 idB 0.

(** A scene holding [txA] in the column [0 <= x < 50] and [txB] in the
    column [50 <= x < 100], and nothing elsewhere; its animations end at
    time [1000]. *)
Definition sceneAB : BlockScene :=
  MkBlockScene
    (<[idA := txA]> (<[idB := txB]> ∅))
    1000
    (fun p =>
       if Qle_bool 0 (SpriteTypes.x p) && negb (Qle_bool 50 (SpriteTypes.x p))
       then Obj txA
       else if Qle_bool 50 (SpriteTypes.x p)
               && negb (Qle_bool 100 (SpriteTypes.x p))
       then Obj txB
       else Null).

(** The component as its field initialisers and constructor leave it, with
    a canvas and a GL context but no scene yet, on a display of pixel
    ratio 1. *)
Definition constructed : Component :=
  MkComponent true true None None false None Undefined Undefined Undefined
    Undefined None false None true None None "and" None
    (MkFastVertexArray false 0) 1 (MkBrowser 1 [] []) [].

(** The same component once [resizeCanvas] has built the scene. *)
Definition resized : Component := set_scene (Some sceneAB) constructed.

(** A mouse event and a touch event on the canvas at [(10, 10)], where
    [sceneAB] holds [txA]. *)
Definition mouseAtA : PointerEvent :=
  MkPointerEvent true true "mouse" 10 10 false false false 1 0.
Definition touchAtA : PointerEvent :=
  MkPointerEvent true true "touch" 10 10 false false false 0 0.

(** A mouse [pointerleave] event, and the component after a touch tap on
    [txA]. *)
Definition mouseLeave : PointerEvent :=
  MkPointerEvent true true "mouse" (-3) 10 false false false 0 0.
Definition tappedA : Component := onClick touchAtA resized.

(** The resized component once [start()] has requested a frame and the
    browser has taken that request off its queue to run the tick. *)
Definition ticking : Component := cancelAnimationFrame 1 (start resized).

(** A component whose host supplies the filter mask [1n]. [ngOnChanges]
    has run [setFilterFlags()] before the view existed, which copied the
    mask to [activeFilterFlags]; then [resizeCanvas] has built the scene.
    [filtersAvailable] still has its initial value, [true]. *)
Definition maskedByHost : Component :=
  MkComponent true true None None false None Undefined Undefined Undefined
    Undefined None false None true None (Some 1%Z) "and" None
    (MkFastVertexArray false 0) 1 (MkBrowser 1 [] []) [].
Definition filteredByHost : Component :=
  set_scene (Some sceneAB) (setFilterFlags (fun _ => 0%Z) None maskedByHost).

(** A component whose host supplies the mask [0n] while a filter gesture
    has set the mask [5n]. *)
Definition zeroMasked : Component :=
  MkComponent true true None None false (Some sceneAB) Undefined Undefined
    Undefined Undefined None false None true (Some 5%Z) (Some 0%Z) "and" None
    (MkFastVertexArray false 0) 1 (MkBrowser 1 [] []) [].

(** The component after the search text became the id of [txA]. *)
Definition searchedA : Component := onSearchText idA resized.

(** A run of operations on the resized component: a start, the tick it
    requested (late enough for the loop to stop), the heartbeat, a pointer
    move, a set-up, a mirror request and a clear. *)
Definition sampleOps : list Op :=
  [ Start; FireFrame 2000 1; FireTimeout 2; PointerMove mouseAtA; Setup [];
    SetMirror (Some idA); Clear "left" ].

(** The resized component after a start and a late tick, which stopped the
    loop and set the heartbeat, and then a pointer move onto [txA], whose
    hover requested a frame: a timer and a frame are pending. *)
Definition idling : Component :=
  onPointerMove mouseAtA (fireFrame 2000 1 (start resized)).


(** A component that holds a pending heartbeat and no frame request, the
    state a context loss leaves when it resets [animationFrameRequest]
    while the heartbeat is pending. *)
Definition heartbeatOnly : Component :=
  MkComponent true true None (Some 2%positive) false (Some sceneAB) Undefined
    Undefined Undefined Undefined None false None true None None "and" None
    (MkFastVertexArray false 0) 1
    (MkBrowser 3 [] [(2%positive, 1000%Z)]) [].

(** * Properties *)

(** ** The vertex shader in single precision *)

Section Shader32Properties.
Import Shader32.
Local Open Scope Z_scope.














End Shader32Properties.

(** ** The vertex shader in exact arithmetic *)

Section ShaderProperties.
Import Shader.

Lemma clamp_unit x : 0 <= clamp x 0 1 <= 1.
Proof.
  unfold clamp. split.
  - apply Q.min_glb; [ apply Q.le_max_r | lra ].
  - apply Q.le_min_r.
Qed.

Lemma clamp_mono x x' : x <= x' -> clamp x 0 1 <= clamp x' 0 1.
Proof.
  intros H. unfold clamp.
  apply Q.min_le_compat_r. apply Q.max_le_compat_r. exact H.
Qed.

Lemma ease_den_pos t : 0 < t * t + (1 - t) * (1 - t).
Proof. nra. Qed.

Lemma smootherstep_ease x : smootherstep x == ease (clamp x 0 1).
Proof. reflexivity. Qed.

Lemma ease_unit t : 0 <= t <= 1 -> 0 <= ease t <= 1.
Proof.
  intros [H0 H1]. unfold ease. pose proof (ease_den_pos t) as Hd. split.
  - apply Qle_shift_div_l; [exact Hd | nra].
  - apply Qle_shift_div_r; [exact Hd | nra].
Qed.

Lemma ease_mono s t : 0 <= s -> s <= t -> t <= 1 -> ease s <= ease t.
Proof.
  intros H0 Hst H1. unfold ease.
  pose proof (ease_den_pos s) as Hs. pose proof (ease_den_pos t) as Ht.
  apply Qle_shift_div_r; [exact Hs|].
  assert (E : t * t / (t * t + (1 - t) * (1 - t)) * (s * s + (1 - s) * (1 - s))
              == t * t * (s * s + (1 - s) * (1 - s)) / (t * t + (1 - t) * (1 - t)))
    by (field; lra).
  rewrite E.
  apply Qle_shift_div_l; [exact Ht|].
  set (p := s * (1 - t)). set (q := t * (1 - s)).
  assert (Hp : 0 <= p) by (unfold p; nra).
  assert (Hpq : p <= q) by (unfold p, q; lra).
  assert (Hsq : p * p <= q * q) by nra.
  unfold p, q in Hsq. lra.
Qed.

Lemma ease_zero : ease 0 == 0.
Proof. reflexivity. Qed.

Lemma mix_mono_up x y a1 a2 : x <= y -> a1 <= a2 -> mix x y a1 <= mix x y a2.
Proof. intros Hxy Ha. unfold mix. nra. Qed.

Lemma mix_mono_down x y a1 a2 : y <= x -> a1 <= a2 -> mix x y a2 <= mix x y a1.
Proof. intros Hxy Ha. unfold mix. nra. Qed.

Lemma smootherstep_unit d : 0 <= smootherstep d <= 1.
Proof. rewrite smootherstep_ease. apply ease_unit, clamp_unit. Qed.

Lemma smootherstep_mono d d' : d <= d' -> smootherstep d <= smootherstep d'.
Proof.
  intros H. rewrite !smootherstep_ease.
  apply ease_mono; [apply clamp_unit | apply clamp_mono, H | apply clamp_unit].
Qed.


Lemma smootherstep_start d : d <= 0 -> smootherstep d == 0.
Proof.
  intros Hd. rewrite smootherstep_ease.
  assert (Hc : clamp d 0 1 <= 0).
  { unfold clamp. apply Q.min_le_iff. left. apply Q.max_lub; [exact Hd | lra]. }
  pose proof (clamp_unit d) as [Hc0 Hc1].
  apply Qle_antisym.
  - apply Qle_trans with (ease 0).
    + apply ease_mono; [exact Hc0 | exact Hc | lra].
    + apply Qle_lteq. right. apply ease_zero.
  - apply ease_unit. split; assumption.
Qed.

Lemma mix_between_up x y a : x <= y -> 0 <= a <= 1 -> x <= mix x y a <= y.
Proof. intros Hxy [H0 H1]. unfold mix. split; nra. Qed.

Lemma mix_between_down x y a : y <= x -> 0 <= a <= 1 -> y <= mix x y a <= x.
Proof. intros Hxy [H0 H1]. unfold mix. split; nra. Qed.

(** In exact arithmetic the formula behaves as C1 says: the value at
    [now = z] is [x] and, for a rate [w > 0], the value moves monotonically
    from [x] towards [y] as [now] grows and stays in the closed interval
    between them. *)
Lemma interpolateAttribute_exact_eases (attr : vec4) (now1 now2 : Q) :
  interpolateAttribute now1 attr
  == mix (vx attr) (vy attr) (ease (clamp ((now1 - vz attr) * vw attr) 0 1))
  /\ interpolateAttribute (vz attr) attr == vx attr
  /\ (0 < vw attr -> now1 <= now2 ->
      (vx attr <= vy attr ->
       vx attr <= interpolateAttribute now1 attr
       /\ interpolateAttribute now1 attr <= interpolateAttribute now2 attr
       /\ interpolateAttribute now2 attr <= vy attr)
      /\ (vy attr <= vx attr ->
          vy attr <= interpolateAttribute now2 attr
          /\ interpolateAttribute now2 attr <= interpolateAttribute now1 attr
          /\ interpolateAttribute now1 attr <= vx attr)).
Proof.
  destruct attr as [x y z w]; cbn [vx vy vz vw] in *.
  unfold interpolateAttribute; cbn [vx vy vz vw].
  split; [reflexivity|]. split.
  - assert (E : (z - z) * w <= 0) by (ring_simplify; lra).
    pose proof (smootherstep_start _ E) as Hs.
    unfold mix. rewrite Hs. ring.
  - intros Hw Hnow.
    assert (Hd : (now1 - z) * w <= (now2 - z) * w) by nra.
    pose proof (smootherstep_mono _ _ Hd) as Hmono.
    pose proof (smootherstep_unit ((now1 - z) * w)) as U1.
    pose proof (smootherstep_unit ((now2 - z) * w)) as U2.
    split; intros Hxy.
    + split; [|split].
      * apply mix_between_up; assumption.
      * apply mix_mono_up; assumption.
      * apply mix_between_up; assumption.
    + split; [|split].
      * apply mix_between_down; assumption.
      * apply mix_mono_down; assumption.
      * apply mix_between_down; assumption.
Qed.

End ShaderProperties.

(** ** The claim on the interpolation *)

Section InterpolationClaim.
Import Shader32.




End InterpolationClaim.

(** ** The filter colour function *)

Lemma filter_test_true (filterMode : string) (F : Z) (tx : TxView) :
  (String.eqb filterMode "and" && (Z.land (bigintFlags tx) F =? F)%Z)
  || (String.eqb filterMode "or"
        && ((F =? 0)%Z || (0 <? Z.land (bigintFlags tx) F)%Z)) = true
  ↔ (filterMode = "and" ∧ Z.land (bigintFlags tx) F = F)
    ∨ (filterMode = "or" ∧ (F = 0%Z ∨ (0 < Z.land (bigintFlags tx) F)%Z)).
Proof.
  rewrite orb_true_iff, !andb_true_iff, orb_true_iff.
  rewrite !String.eqb_eq, !Z.eqb_eq, Z.ltb_lt. reflexivity.
Qed.

(** C2. The closure of [getFilterColorFunction(F)] calls
    [defaultColorFunction] with the default palettes exactly when, in mode
    ['and'], [(tx.bigintFlags & F) === F], or, in mode ['or'], [F === 0n] or
    [(tx.bigintFlags & F) > 0n]; in every other case, whatever the mode
    string, it calls it with the unmatched palettes. With [F = 0] both
    modes match every transaction. *)
Theorem getFilterColorFunction_matches
    (filterMode : string) (F : Z) (tx : TxView) :
  let matched :=
    (filterMode = "and" ∧ Z.land (bigintFlags tx) F = F)
    ∨ (filterMode = "or" ∧ (F = 0%Z ∨ (0 < Z.land (bigintFlags tx) F)%Z)) in
  ((∀ dcf, getFilterColorFunction dcf filterMode F tx = dcf tx DefaultPalettes)
     ↔ matched)
  ∧ ((∀ dcf, getFilterColorFunction dcf filterMode F tx
             = dcf tx UnmatchedPalettes)
     ↔ ¬ matched)
  ∧ (filterMode = "and" ∨ filterMode = "or" →
     ∀ dcf tx', getFilterColorFunction dcf filterMode 0 tx'
                = dcf tx' DefaultPalettes).
Proof.
  intros matched. pose proof (filter_test_true filterMode F tx) as Ht.
  fold matched in Ht. unfold getFilterColorFunction.
  split; [|split].
  - split.
    + intros H. specialize (H paletteProbe). apply Ht.
      destruct (_ || _); [reflexivity | discriminate H].
    + intros Hm dcf. apply Ht in Hm. rewrite Hm. reflexivity.
  - split.
    + intros H Hm. specialize (H paletteProbe). apply Ht in Hm.
      rewrite Hm in H. discriminate H.
    + intros Hm dcf. destruct (_ || _) eqn:E; [|reflexivity].
      exfalso. apply Hm, Ht. reflexivity.
  - intros Hmode dcf tx'. rewrite Z.land_0_r.
    destruct Hmode as [-> | ->]; reflexivity.
Qed.

Lemma getFilterColorFunction_matches_witness :
  getFilterColorFunction paletteProbe "and" 2 (MkTxView 0 "a" 2)
    = paletteProbe (MkTxView 0 "a" 2) DefaultPalettes
  ∧ getFilterColorFunction paletteProbe "or" 0 (MkTxView 0 "a" 5)
    = paletteProbe (MkTxView 0 "a" 5) DefaultPalettes.
Proof.
  split.
  - destruct (getFilterColorFunction_matches "and" 2 (MkTxView 0 "a" 2))
      as ([_ H] & _ & _).
    apply H. left. split; reflexivity.
  - destruct (getFilterColorFunction_matches "or" 0 (MkTxView 0 "a" 5))
      as (_ & _ & H).
    apply H. right. reflexivity.
Defined.

(** ** The frame scheduler *)

Ltac open_component c :=
  destruct c as [cv glc afr ahb rn scn hov sel hl mir tip rdy srch fav aff
                 ff fm oc va dpr win lg];
  cbn in *; subst.

(** Drawing touches the log, the vertex array and the ready flag only. *)
Lemma draw_scheduler (now : Q) (c : Component) :
  running (draw now c) = running c
  ∧ scene (draw now c) = scene c
  ∧ window (draw now c) = window c
  ∧ animationFrameRequest (draw now c) = animationFrameRequest c
  ∧ animationHeartBeat (draw now c) = animationHeartBeat c.
Proof.
  open_component c. unfold draw. cbn.
  destruct scn, glc, va as [[|] [|n]], rdy; cbn; auto 10.
Qed.

Lemma keepsLooping_spec (now : Q) (c : Component) :
  keepsLooping now c = true
  ↔ running c = true
    ∧ ∃ sc, scene c = Some sc ∧ now <= animateUntil sc + 500.
Proof.
  unfold keepsLooping. rewrite andb_true_iff.
  destruct (scene c) as [sc|].
  - rewrite Qle_bool_iff. split.
    + intros [Hr Hle]. split; [exact Hr|]. exists sc. auto.
    + intros [Hr (sc' & Hsc & Hle)]. injection Hsc as <-. auto.
  - split; [intros [_ H]; discriminate H|].
    intros [_ (sc & Hsc & _)]. discriminate Hsc.
Qed.

(** [doRun]: the pending request the component knows of is cancelled and
    one new frame is requested. *)
Lemma doRun_effect (c : Component) :
  let h := nextHandle (window c) in
  let c' := doRun c in
  animationFrameRequest c' = Some h
  ∧ frames (window c') =
    match animationFrameRequest c with
    | Some old => filter (fun h' => h' ≠ old) (frames (window c))
    | None => frames (window c)
    end ++ [h]
  ∧ timeouts (window c') = timeouts (window c)
  ∧ nextHandle (window c') = Pos.succ h
  ∧ animationHeartBeat c' = animationHeartBeat c
  ∧ running c' = running c.
Proof.
  open_component c. destruct win as [nh fr tmo]. unfold doRun.
  destruct afr; cbn; auto 10.
Qed.

(** The other branch of [LOOP]: the pending heartbeat the component knows
    of is cleared and one timer of 1000 ms is set. *)
Lemma heartbeat_effect (now : Q) (c : Component) :
  keepsLooping now c = false →
  let h := nextHandle (window c) in
  let c' := loop now c in
  animationHeartBeat c' = Some h
  ∧ timeouts (window c') =
    match animationHeartBeat c with
    | Some old => filter (fun t => t.1 ≠ old) (timeouts (window c))
    | None => timeouts (window c)
    end ++ [(h, 1000%Z)]
  ∧ frames (window c') = frames (window c)
  ∧ nextHandle (window c') = Pos.succ h
  ∧ animationFrameRequest c' = animationFrameRequest c
  ∧ running c' = running c.
Proof.
  intros Hk. unfold loop. rewrite Hk. clear Hk.
  open_component c. destruct win as [nh fr tmo].
  destruct ahb; cbn; auto 10.
Qed.

(** [start()] sets [running] and requests a frame. *)
Lemma start_effect (c : Component) :
  let h := nextHandle (window c) in
  running (start c) = true
  ∧ animationFrameRequest (start c) = Some h
  ∧ h ∈ frames (window (start c)).
Proof.
  open_component c. destruct win as [nh fr tmo]. unfold start, doRun.
  destruct afr; cbn; (split; [reflexivity|]; split; [reflexivity|]);
    apply elem_of_app; right; apply list_elem_of_singleton; reflexivity.
Qed.

Lemma clearTimeout_keeps (h : positive) (c : Component) :
  nextHandle (window (clearTimeout h c)) = nextHandle (window c).
Proof. open_component c. reflexivity. Qed.

(** The continuation rule at the timestamp [run] works with. *)
Lemma run_at_tickTime (clock : Q) (now : option Q) (c : Component) :
  let t := tickTime clock now in
  let c' := run clock now c in
  let h := nextHandle (window c) in
  let keeps :=
    running c = true
    ∧ ∃ sc, scene c = Some sc ∧ t <= animateUntil sc + 500 in
  h ∉ frames (window c) →
  (h ∈ frames (window c') ↔ keeps)
  ∧ (keeps →
     animationFrameRequest c' = Some h
     ∧ (∀ h', h' ∈ frames (window c')
              ↔ h' = h
                ∨ (h' ∈ frames (window c) ∧ animationFrameRequest c ≠ Some h'))
     ∧ timeouts (window c') = timeouts (window c)
     ∧ animationHeartBeat c' = animationHeartBeat c)
  ∧ (¬ keeps →
     frames (window c') = frames (window c)
     ∧ animationFrameRequest c' = animationFrameRequest c
     ∧ animationHeartBeat c' = Some h
     ∧ (∀ x, x ∈ timeouts (window c')
             ↔ x = (h, 1000%Z)
               ∨ (x ∈ timeouts (window c) ∧ animationHeartBeat c ≠ Some x.1))
     ∧ let c'' := fireTimeout h c' in
       running c'' = true
       ∧ animationFrameRequest c'' = Some (Pos.succ h)
       ∧ Pos.succ h ∈ frames (window c'')).
Proof.
  intros t c' h keeps Hfresh.
  destruct (draw_scheduler t c) as (Dr & Ds & Dw & Df & Dh).
  pose proof (keepsLooping_spec t (draw t c)) as Hspec.
  rewrite Dr, Ds in Hspec. fold keeps in Hspec.
  assert (Hyes : keeps → 
     animationFrameRequest c' = Some h
     ∧ (∀ h', h' ∈ frames (window c')
              ↔ h' = h
                ∨ (h' ∈ frames (window c) ∧ animationFrameRequest c ≠ Some h'))
     ∧ timeouts (window c') = timeouts (window c)
     ∧ animationHeartBeat c' = animationHeartBeat c).
  { intros Hk. apply Hspec in Hk. subst c'. unfold run, loop. fold t.
    rewrite Hk.
    destruct (doRun_effect (draw t c)) as (E1 & E2 & E3 & _ & E5 & _).
    rewrite Dw, Df in *. rewrite Dh in E5.
    split; [exact E1|]. split; [|split; assumption].
    intros h'. rewrite E2, elem_of_app, list_elem_of_singleton.
    destruct (animationFrameRequest c) as [old|].
    - rewrite list_elem_of_filter. split.
      + intros [[Hne Hin] | ->]; [right | left; reflexivity].
        split; [exact Hin | congruence].
      + intros [-> | [Hin Hne]]; [right; reflexivity | left].
        split; [congruence | exact Hin].
    - split.
      + intros [Hin | ->]; [right | left; reflexivity].
        split; [exact Hin | discriminate].
      + intros [-> | [Hin _]]; [right; reflexivity | left; exact Hin]. }
  assert (Hno : ¬ keeps →
     frames (window c') = frames (window c)
     ∧ animationFrameRequest c' = animationFrameRequest c
     ∧ animationHeartBeat c' = Some h
     ∧ (∀ x, x ∈ timeouts (window c')
             ↔ x = (h, 1000%Z)
               ∨ (x ∈ timeouts (window c) ∧ animationHeartBeat c ≠ Some x.1))
     ∧ let c'' := fireTimeout h c' in
       running c'' = true
       ∧ animationFrameRequest c'' = Some (Pos.succ h)
       ∧ Pos.succ h ∈ frames (window c'')).
  { intros Hk.
    assert (Hk' : keepsLooping t (draw t c) = false).
    { destruct (keepsLooping t (draw t c)); [|reflexivity].
      exfalso. apply Hk, Hspec. reflexivity. }
    destruct (heartbeat_effect t (draw t c) Hk') as (E1 & E2 & E3 & E4 & E5 & _).
    change (loop t (draw t c)) with c' in *.
    rewrite Dw, ?Df, ?Dh in *. fold h in E1, E2, E4.
    assert (Hmem : ∀ x, x ∈ timeouts (window c')
             ↔ x = (h, 1000%Z)
               ∨ (x ∈ timeouts (window c) ∧ animationHeartBeat c ≠ Some x.1)).
    { intros x. rewrite E2, elem_of_app, list_elem_of_singleton.
      destruct (animationHeartBeat c) as [old|].
      - rewrite list_elem_of_filter. split.
        + intros [[Hne Hin] | ->]; [right | left; reflexivity].
          split; [exact Hin | congruence].
        + intros [-> | [Hin Hne]]; [right; reflexivity | left].
          split; [congruence | exact Hin].
      - split.
        + intros [Hin | ->]; [right | left; reflexivity].
          split; [exact Hin | discriminate].
        + intros [-> | [Hin _]]; [right; reflexivity | left; exact Hin]. }
    split; [exact E3|]. split; [exact E5|]. split; [exact E1|].
    split; [exact Hmem|].
    unfold fireTimeout. rewrite bool_decide_eq_true_2.
    2:{ apply list_elem_of_fmap. exists (h, 1000%Z). split; [reflexivity|].
        apply Hmem. left. reflexivity. }
    pose proof (start_effect (clearTimeout h c')) as S.
    rewrite clearTimeout_keeps, E4 in S. exact S. }
  split; [|split; assumption].
  split.
  - intros Hin.
    destruct (keepsLooping t (draw t c)) eqn:Hb; [apply Hspec; reflexivity|].
    assert (Hk : ¬ keeps) by (rewrite <- Hspec; discriminate).
    destruct (Hno Hk) as (E & _). rewrite E in Hin. contradiction.
  - intros Hk. apply (proj1 (proj2 (Hyes Hk))). left. reflexivity.
Qed.

(** [run] works with [now] when it is given and not zero, and with the
    clock's answer otherwise. *)
Lemma tickTime_cases (clock : Q) (now : option Q) (t : Q) :
  (now = Some t ∧ ¬ t == 0)
  ∨ ((now = None ∨ ∃ z, now = Some z ∧ z == 0) ∧ t = clock) →
  tickTime clock now = t.
Proof.
  intros [[-> Hne] | [[-> | (z & -> & Hz)] ->]]; cbn.
  - destruct (Qeq_bool t 0) eqn:E; [|reflexivity].
    apply Qeq_bool_iff in E. contradiction.
  - reflexivity.
  - apply Qeq_bool_iff in Hz. rewrite Hz. reflexivity.
Qed.

(** C9. Continuation rule of a tick [run(now)] at the clock reading
    [clock] of [performance.now()]. The tick's timestamp [t] is [now] when
    [now] is given and not zero, and [clock] when [now] is missing or zero.
    A next animation frame is requested exactly when [running] is true, a
    scene exists and [t <= scene.animateUntil + 500]. Otherwise no frame is
    requested, the heartbeat timer the component holds is cleared and one
    timer of 1000 ms is set in its place, and when that timer fires,
    [start()] sets [running] and requests a frame. *)
Theorem run_continuation
    (clock : Q) (now : option Q) (t : Q) (c : Component) :
  (now = Some t ∧ ¬ t == 0)
  ∨ ((now = None ∨ ∃ z, now = Some z ∧ z == 0) ∧ t = clock) →
  let c' := run clock now c in
  let h := nextHandle (window c) in
  let keeps :=
    running c = true
    ∧ ∃ sc, scene c = Some sc ∧ t <= animateUntil sc + 500 in
  h ∉ frames (window c) →
  (h ∈ frames (window c') ↔ keeps)
  ∧ (keeps →
     animationFrameRequest c' = Some h
     ∧ (∀ h', h' ∈ frames (window c')
              ↔ h' = h
                ∨ (h' ∈ frames (window c) ∧ animationFrameRequest c ≠ Some h'))
     ∧ timeouts (window c') = timeouts (window c)
     ∧ animationHeartBeat c' = animationHeartBeat c)
  ∧ (¬ keeps →
     frames (window c') = frames (window c)
     ∧ animationFrameRequest c' = animationFrameRequest c
     ∧ animationHeartBeat c' = Some h
     ∧ (∀ x, x ∈ timeouts (window c')
             ↔ x = (h, 1000%Z)
               ∨ (x ∈ timeouts (window c) ∧ animationHeartBeat c ≠ Some x.1))
     ∧ let c'' := fireTimeout h c' in
       running c'' = true
       ∧ animationFrameRequest c'' = Some (Pos.succ h)
       ∧ Pos.succ h ∈ frames (window c'')).
Proof.
  intros Ht. rewrite <- (tickTime_cases clock now t Ht).
  apply run_at_tickTime.
Qed.

Lemma run_continuation_witness :
  animationFrameRequest (run 5000 (Some 100) ticking) = Some 2%positive
  ∧ animationHeartBeat (run 200 (Some 2000) ticking) = Some 2%positive
  ∧ animationFrameRequest (run 200 None ticking) = Some 2%positive
  ∧ animationHeartBeat (run 2000 (Some 0) ticking) = Some 2%positive
  ∧ running (fireTimeout 2 (run 2000 None ticking)) = true.
Proof.
  assert (Hfresh : nextHandle (window ticking) ∉ frames (window ticking)).
  { vm_compute. intros H. inversion H. }
  assert (Given : ∀ clock t : Q, ¬ t == 0 →
            (Some t = Some t ∧ ¬ t == 0)
            ∨ ((Some t = None ∨ ∃ z, Some t = Some z ∧ z == 0) ∧ t = clock)).
  { intros clock t Hne. left. split; [reflexivity | exact Hne]. }
  assert (Missing : ∀ clock : Q,
            (@None Q = Some clock ∧ ¬ clock == 0)
            ∨ ((@None Q = None ∨ ∃ z, @None Q = Some z ∧ z == 0)
               ∧ clock = clock)).
  { intros clock. right. split; [left|]; reflexivity. }
  assert (Zero : ∀ clock : Q,
            (Some 0 = Some clock ∧ ¬ clock == 0)
            ∨ ((Some 0 = None ∨ ∃ z, Some 0 = Some z ∧ z == 0)
               ∧ clock = clock)).
  { intros clock. right. split; [right; exists 0; split|]; reflexivity. }
  assert (Early : ∀ t : Q, Qle_bool t (animateUntil sceneAB + 500) = true →
            running ticking = true
            ∧ ∃ sc, scene ticking = Some sc ∧ t <= animateUntil sc + 500).
  { intros t Hle. split; [reflexivity|]. exists sceneAB.
    split; [reflexivity|]. apply Qle_bool_iff in Hle. exact Hle. }
  assert (Late : ∀ t : Q, Qle_bool t (animateUntil sceneAB + 500) = false →
            ¬ (running ticking = true
               ∧ ∃ sc, scene ticking = Some sc ∧ t <= animateUntil sc + 500)).
  { intros t Hgt (_ & sc & Hsc & Hle). injection Hsc as <-.
    apply Qle_bool_iff in Hle. rewrite Hle in Hgt. discriminate Hgt. }
  destruct (run_continuation 5000 (Some 100) 100 ticking
              (Given 5000 100 ltac:(discriminate)) Hfresh) as (_ & H1 & _).
  destruct (run_continuation 200 (Some 2000) 2000 ticking
              (Given 200 2000 ltac:(discriminate)) Hfresh) as (_ & _ & H2).
  destruct (run_continuation 200 None 200 ticking (Missing 200) Hfresh)
    as (_ & H3 & _).
  destruct (run_continuation 2000 (Some 0) 2000 ticking (Zero 2000) Hfresh)
    as (_ & _ & H4).
  destruct (run_continuation 2000 None 2000 ticking (Missing 2000) Hfresh)
    as (_ & _ & H5).
  split; [apply (H1 (Early 100 eq_refl))|].
  split; [apply (H2 (Late 2000 eq_refl))|].
  split; [apply (H3 (Early 200 eq_refl))|].
  split; [apply (H4 (Late 2000 eq_refl))|].
  apply (H5 (Late 2000 eq_refl)).
Defined.

(** ** The interaction layer *)

#[local] Arguments strict_eq : simpl never.

Lemma strict_eq_true (v1 v2 : Ref) : strict_eq v1 v2 = true ↔ v1 = v2.
Proof. unfold strict_eq. apply bool_decide_eq_true. Qed.

Lemma strict_eq_false (v1 v2 : Ref) : strict_eq v1 v2 = false ↔ v1 ≠ v2.
Proof. unfold strict_eq. apply bool_decide_eq_false. Qed.

Lemma strict_eq_refl (v : Ref) : strict_eq v v = true.
Proof. apply strict_eq_true. reflexivity. Qed.

(** A commit, [setPreviewTx(cssX, cssY, true)], on a component with a
    scene, by what the hit test answers. *)

Lemma commit_selects_hit (c : Component) (sc : BlockScene) (cssX cssY : Q)
    (X : TxView) :
  scene c = Some sc →
  truthy (selectedTx c) = false →
  getTxAt sc
    (SpriteTypes.MkPosition (cssX * devicePixelRatio c)
       (cssY * devicePixelRatio c)) = Obj X →
  selectedTx (setPreviewTx cssX cssY true c) = Obj X.
Proof.
  intros Hsc Hsel Hhit. open_component c. unfold setPreviewTx. cbn.
  rewrite orb_true_r, Hhit. unfold or_ref. rewrite Hsel.
  destruct (strict_eq (Obj X) hov) eqn:E; cbn.
  - destruct (strict_eq (Obj X) sel) eqn:E2; [|reflexivity].
    apply strict_eq_true in E2. subst sel. discriminate.
  - destruct hov, afr; reflexivity.
Qed.

Lemma commit_toggles_selected (c : Component) (sc : BlockScene)
    (cssX cssY : Q) (X : TxView) :
  scene c = Some sc →
  selectedTx c = Obj X →
  getTxAt sc
    (SpriteTypes.MkPosition (cssX * devicePixelRatio c)
       (cssY * devicePixelRatio c)) = Obj X →
  let c' := setPreviewTx cssX cssY true c in
  selectedTx c' = Null ∧ hoverTx c' = Obj X
  ∧ log c' = log c ++ [TxHoverEvent (Some (txid X))].
Proof.
  intros Hsc Hsel Hhit. open_component c. unfold setPreviewTx. cbn.
  rewrite Hhit. unfold or_ref. cbn. rewrite !strict_eq_refl. cbn. auto.
Qed.

Lemma commit_switches_selection (c : Component) (sc : BlockScene)
    (cssX cssY : Q) (X Y : TxView) :
  scene c = Some sc →
  selectedTx c = Obj X →
  getTxAt sc
    (SpriteTypes.MkPosition (cssX * devicePixelRatio c)
       (cssY * devicePixelRatio c)) = Obj Y →
  Y ≠ X →
  let c' := setPreviewTx cssX cssY true c in
  selectedTx c' = Obj Y
  ∧ log c' = log c ++ [SceneSetHover X false; SceneSetHover Y true].
Proof.
  intros Hsc Hsel Hhit Hne. open_component c. unfold setPreviewTx. cbn.
  rewrite Hhit. unfold or_ref. cbn.
  assert (E : strict_eq (Obj Y) (Obj X) = false)
    by (apply strict_eq_false; congruence).
  rewrite E. destruct afr; cbn; rewrite <- app_assoc; auto.
Qed.

Lemma commit_miss_clears (c : Component) (sc : BlockScene) (cssX cssY : Q) :
  scene c = Some sc →
  truthy (getTxAt sc
            (SpriteTypes.MkPosition (cssX * devicePixelRatio c)
               (cssY * devicePixelRatio c))) = false →
  truthy (selectedTx (setPreviewTx cssX cssY true c)) = false.
Proof.
  intros Hsc Hhit. open_component c. unfold setPreviewTx. cbn.
  rewrite orb_true_r.
  destruct (getTxAt sc _) as [ | |Z] eqn:Eh; [| |discriminate Hhit];
    (destruct (strict_eq _ (or_ref sel hov)); cbn;
     [ destruct (strict_eq _ sel); reflexivity
     | destruct (or_ref sel hov), afr; reflexivity ]).
Qed.

Lemma commit_miss_on_selected (c : Component) (sc : BlockScene)
    (cssX cssY : Q) (X : TxView) :
  scene c = Some sc →
  selectedTx c = Obj X →
  truthy (getTxAt sc
            (SpriteTypes.MkPosition (cssX * devicePixelRatio c)
               (cssY * devicePixelRatio c))) = false →
  let c' := setPreviewTx cssX cssY true c in
  selectedTx c' = Null ∧ hoverTx c' = Null
  ∧ log c' = log c ++ [SceneSetHover X false; TxHoverEvent None].
Proof.
  intros Hsc Hsel Hhit. open_component c. unfold setPreviewTx. cbn.
  unfold or_ref. cbn.
  destruct (getTxAt sc _) as [ | |Z] eqn:Eh; [| |discriminate Hhit];
    (match goal with |- context [strict_eq ?a ?b] =>
       assert (E : strict_eq a b = false)
         by (apply strict_eq_false; discriminate)
     end;
     rewrite E; destruct afr; cbn; rewrite <- app_assoc; auto).
Qed.

(** C3. Toggle-select law. A commit is [setPreviewTx(cssX, cssY, true)] on
    a component with a scene. When no transaction is selected and the
    commit hits [X], [X] becomes [selectedTx]; a commit hitting the selected
    [X] again moves [X] to [hoverTx] and empties [selectedTx]; a commit
    hitting another transaction [Y] makes [Y] the [selectedTx]; a commit
    hitting nothing leaves [selectedTx] empty. *)
Theorem toggle_select (c : Component) (sc : BlockScene) (cssX cssY : Q) :
  scene c = Some sc →
  let hit :=
    getTxAt sc
      (SpriteTypes.MkPosition (cssX * devicePixelRatio c)
         (cssY * devicePixelRatio c)) in
  let c' := setPreviewTx cssX cssY true c in
  (∀ X, truthy (selectedTx c) = false → hit = Obj X → selectedTx c' = Obj X)
  ∧ (∀ X, selectedTx c = Obj X → hit = Obj X →
       selectedTx c' = Null ∧ hoverTx c' = Obj X)
  ∧ (∀ X Y, selectedTx c = Obj X → hit = Obj Y → Y ≠ X →
       selectedTx c' = Obj Y)
  ∧ (truthy hit = false → truthy (selectedTx c') = false).
Proof.
  intros Hsc hit c'. split; [|split; [|split]].
  - intros X Hsel Hhit. eapply commit_selects_hit; eassumption.
  - intros X Hsel Hhit.
    destruct (commit_toggles_selected c sc cssX cssY X Hsc Hsel Hhit)
      as (H1 & H2 & _).
    split; assumption.
  - intros X Y Hsel Hhit Hne.
    apply (commit_switches_selection c sc cssX cssY X Y Hsc Hsel Hhit Hne).
  - intros Hhit. eapply commit_miss_clears; eassumption.
Qed.

Lemma toggle_select_witness :
  selectedTx (setPreviewTx 10 10 true resized) = Obj txA
  ∧ selectedTx (setPreviewTx 10 10 true tappedA) = Null
  ∧ hoverTx (setPreviewTx 10 10 true tappedA) = Obj txA
  ∧ selectedTx (setPreviewTx 60 10 true tappedA) = Obj txB
  ∧ truthy (selectedTx (setPreviewTx 200 10 true tappedA)) = false.
Proof.
  destruct (toggle_select resized sceneAB 10 10 eq_refl) as (H1 & _).
  destruct (toggle_select tappedA sceneAB 10 10 eq_refl) as (_ & H2 & _).
  destruct (toggle_select tappedA sceneAB 60 10 eq_refl) as (_ & _ & H3 & _).
  destruct (toggle_select tappedA sceneAB 200 10 eq_refl) as (_ & _ & _ & H4).
  split; [apply H1; reflexivity|].
  split; [apply (H2 txA); reflexivity|].
  split; [apply (H2 txA); reflexivity|].
  split; [apply (H3 txA txB); [reflexivity | reflexivity | discriminate]|].
  apply H4. reflexivity.
Defined.

(** Whatever the scene answers at the off-canvas point, a non-touch
    pointer-leave never leaves the selected transaction selected. *)
Lemma pointer_leave_drops_selection
    (event : PointerEvent) (c : Component) (sc : BlockScene) (X : TxView) :
  scene c = Some sc →
  selectedTx c = Obj X →
  pointerType event ≠ "touch" →
  selectedTx (onPointerLeave event c) ≠ Obj X.
Proof.
  intros Hsc Hsel Hty. unfold onPointerLeave.
  apply String.eqb_neq in Hty. rewrite Hty. cbn [negb].
  destruct (getTxAt sc
              (SpriteTypes.MkPosition (-1 * devicePixelRatio c)
                 (-1 * devicePixelRatio c))) as [ | |Y] eqn:Hhit.
  - destruct (commit_miss_on_selected c sc (-1) (-1) X Hsc Hsel) as (H & _).
    { rewrite Hhit. reflexivity. }
    rewrite H. discriminate.
  - destruct (commit_miss_on_selected c sc (-1) (-1) X Hsc Hsel) as (H & _).
    { rewrite Hhit. reflexivity. }
    rewrite H. discriminate.
  - destruct (decide (Y = X)) as [-> | Hne].
    + destruct (commit_toggles_selected c sc (-1) (-1) X Hsc Hsel Hhit)
        as (H & _).
      rewrite H. discriminate.
    + destruct (commit_switches_selection c sc (-1) (-1) X Y Hsc Hsel Hhit Hne)
        as (H & _).
      rewrite H. congruence.
Qed.

(** C4, as stated, fails: after a touch tap has selected [txA], a mouse
    pointer-leave empties [selectedTx]. *)
Lemma pointer_leave_keeps_selection_counterexample :
  selectedTx tappedA = Obj txA
  ∧ selectedTx (onPointerLeave mouseLeave tappedA) = Null
  ∧ selectedTx (onPointerLeave mouseLeave tappedA) ≠ selectedTx tappedA.
Proof. split; [reflexivity|]. split; [reflexivity | discriminate]. Qed.

(** C4, amended. A non-touch pointer-leave is a commit at the off-canvas
    point [(-1, -1)]: on a component with a scene whose hit test answers
    nothing there, it unsets the hover of the selected transaction [X],
    empties both [selectedTx] and [hoverTx] and emits a hover notification
    of none. A touch pointer-leave changes nothing. *)
Theorem pointer_leave_clears_selection
    (event : PointerEvent) (c : Component) (sc : BlockScene) (X : TxView) :
  scene c = Some sc →
  selectedTx c = Obj X →
  truthy (getTxAt sc
            (SpriteTypes.MkPosition (-1 * devicePixelRatio c)
               (-1 * devicePixelRatio c))) = false →
  (pointerType event ≠ "touch" →
     let c' := onPointerLeave event c in
     selectedTx c' = Null ∧ hoverTx c' = Null
     ∧ log c' = log c ++ [SceneSetHover X false; TxHoverEvent None])
  ∧ (pointerType event = "touch" → onPointerLeave event c = c).
Proof.
  intros Hsc Hsel Hhit. unfold onPointerLeave. split.
  - intros Hty. apply String.eqb_neq in Hty. rewrite Hty. cbn [negb].
    apply (commit_miss_on_selected c sc (-1) (-1) X Hsc Hsel Hhit).
  - intros Hty. apply String.eqb_eq in Hty. rewrite Hty. reflexivity.
Qed.

Lemma pointer_leave_clears_selection_witness :
  selectedTx (onPointerLeave mouseLeave tappedA) = Null
  ∧ onPointerLeave touchAtA tappedA = tappedA.
Proof.
  destruct (pointer_leave_clears_selection mouseLeave tappedA sceneAB txA
              eq_refl eq_refl eq_refl) as (H1 & _).
  destruct (pointer_leave_clears_selection touchAtA tappedA sceneAB txA
              eq_refl eq_refl eq_refl) as (_ & H2).
  split.
  - apply H1. discriminate.
  - apply H2. reflexivity.
Defined.

(** *** Click notifications *)

Lemma clickEvents_snoc (l : list Effect) (e : Effect) :
  clickEvents (l ++ [e]) = clickEvents l ++ clickEvents [e].
Proof. unfold clickEvents. apply List.filter_app. Qed.

Ltac quiet_log :=
  cbn; rewrite ?clickEvents_snoc; cbn; rewrite ?app_nil_r; try reflexivity.

(** Neither [setPreviewTx] nor the pointer-leave handler emits on
    [txClickEvent]. *)
Lemma setPreviewTx_clickEvents (cssX cssY : Q) (clicked : bool) (c : Component) :
  clickEvents (log (setPreviewTx cssX cssY clicked c)) = clickEvents (log c).
Proof.
  open_component c. unfold setPreviewTx. cbn.
  destruct scn as [sc|]; [|reflexivity].
  destruct (negb (truthy sel) || clicked); [|reflexivity].
  destruct (strict_eq _ (or_ref sel hov)); cbn.
  - destruct clicked; [|reflexivity].
    destruct (strict_eq _ sel); quiet_log.
  - destruct (or_ref sel hov), (getTxAt sc _), clicked, afr; quiet_log.
Qed.

Lemma onPointerLeave_clickEvents (event : PointerEvent) (c : Component) :
  clickEvents (log (onPointerLeave event c)) = clickEvents (log c).
Proof.
  unfold onPointerLeave. destruct (negb _); [|reflexivity].
  apply setPreviewTx_clickEvents.
Qed.

Lemma onPointerMove_clickEvents (event : PointerEvent) (c : Component) :
  clickEvents (log (onPointerMove event c)) = clickEvents (log c).
Proof.
  unfold onPointerMove. destruct (negb _); [reflexivity|].
  destruct (targetIsCanvas event).
  - apply setPreviewTx_clickEvents.
  - apply onPointerLeave_clickEvents.
Qed.

(** What [onTxClick] appends to the log. *)
Lemma onTxClick_log (cssX cssY : Q) (keyModifier : bool) (c : Component) :
  log (onTxClick cssX cssY keyModifier c) =
  log c ++
  match scene c with
  | Some sc =>
    match getTxAt sc
            (SpriteTypes.MkPosition (cssX * devicePixelRatio c)
               (cssY * devicePixelRatio c)) with
    | Obj tx =>
      if truthy_string (txid tx) then [TxClickEvent tx keyModifier] else []
    | _ => []
    end
  | None => []
  end.
Proof.
  open_component c. unfold onTxClick. cbn.
  destruct scn as [sc|]; [|symmetry; apply app_nil_r].
  destruct (getTxAt sc _) as [ | |tx]; cbn; try (symmetry; apply app_nil_r).
  destruct (truthy_string (txid tx)); cbn; [reflexivity|].
  symmetry; apply app_nil_r.
Qed.

Lemma truthy_string_true (s : string) : truthy_string s = true ↔ s ≠ "".
Proof.
  unfold truthy_string. rewrite negb_true_iff. apply String.eqb_neq.
Qed.

(** C10. A [pointerup] on the canvas of pointer type ['touch'] performs
    the selection of [setPreviewTx(offsetX, offsetY, true)]: with a scene,
    a hit [X] becomes [selectedTx] when nothing is selected, a hit on the
    selected [X] moves it to [hoverTx] and empties [selectedTx], a hit on
    another [Y] makes [Y] the [selectedTx], and a miss leaves [selectedTx]
    empty; it adds no [txClickEvent] emission. Whenever [onClick] does add
    one, the event is a non-touch event on the canvas, the hit test
    answered a transaction with a non-empty [txid], and the one emission
    carries that transaction and the flag
    [shiftKey || ctrlKey || metaKey || which === 2 || button === 1]. *)
Theorem txClickEvent_only_non_touch (event : PointerEvent) (c : Component) :
  let c' := onClick event c in
  let hit (sc : BlockScene) :=
    getTxAt sc
      (SpriteTypes.MkPosition (offsetX event * devicePixelRatio c)
         (offsetY event * devicePixelRatio c)) in
  (canvas c = true → targetIsCanvas event = true →
   pointerType event = "touch" →
   c' = setPreviewTx (offsetX event) (offsetY event) true c
   ∧ clickEvents (log c') = clickEvents (log c)
   ∧ ∀ sc, scene c = Some sc →
       (∀ X, truthy (selectedTx c) = false → hit sc = Obj X →
             selectedTx c' = Obj X)
       ∧ (∀ X, selectedTx c = Obj X → hit sc = Obj X →
               selectedTx c' = Null ∧ hoverTx c' = Obj X)
       ∧ (∀ X Y, selectedTx c = Obj X → hit sc = Obj Y → Y ≠ X →
                 selectedTx c' = Obj Y
                 ∧ log c' =
                   log c ++ [SceneSetHover X false; SceneSetHover Y true])
       ∧ (truthy (hit sc) = false → truthy (selectedTx c') = false))
  ∧ (clickEvents (log c') ≠ clickEvents (log c) →
     canvas c = true ∧ targetIsCanvas event = true
     ∧ pointerType event ≠ "touch"
     ∧ ∃ sc tx,
         scene c = Some sc
         ∧ hit sc = Obj tx
         ∧ txid tx ≠ ""
         ∧ log c' =
           log c ++
           [TxClickEvent tx
              (shiftKey event || ctrlKey event || metaKey event
               || ((which event =? 2)%Z || (button event =? 1)%Z))]).
Proof.
  intros c' hit. subst c' hit. unfold onClick. split.
  - intros Hcv Htg Hty. apply String.eqb_eq in Hty.
    rewrite Hcv, Htg, Hty. cbn [negb andb].
    split; [reflexivity|]. split; [apply setPreviewTx_clickEvents|].
    intros sc Hsc. split; [|split; [|split]].
    + intros X Hsel Hhit. eapply commit_selects_hit; eassumption.
    + intros X Hsel Hhit.
      destruct (commit_toggles_selected c sc _ _ X Hsc Hsel Hhit)
        as (H1 & H2 & _).
      split; assumption.
    + intros X Y Hsel Hhit Hne.
      apply (commit_switches_selection c sc _ _ X Y Hsc Hsel Hhit Hne).
    + intros Hhit. eapply commit_miss_clears; eassumption.
  - destruct (canvas c); cbn; [|intros H; contradiction H; reflexivity].
    destruct (targetIsCanvas event); cbn;
      [|intros H; contradiction H; reflexivity].
    destruct (String.eqb (pointerType event) "touch") eqn:Hty.
    + intros H. contradiction H. apply setPreviewTx_clickEvents.
    + apply String.eqb_neq in Hty. rewrite onTxClick_log.
      destruct (scene c) as [sc|];
        [|rewrite app_nil_r; intros H; contradiction H; reflexivity].
      destruct (getTxAt sc _) as [ | |tx] eqn:Hhit;
        try (rewrite app_nil_r; intros H; contradiction H; reflexivity).
      destruct (truthy_string (txid tx)) eqn:Hid;
        [|rewrite app_nil_r; intros H; contradiction H; reflexivity].
      intros _. repeat (split; [tauto || assumption|]).
      exists sc, tx. rewrite <- truthy_string_true. auto.
Qed.

Lemma txClickEvent_only_non_touch_witness :
  selectedTx (onClick touchAtA resized) = Obj txA
  ∧ selectedTx (onClick touchAtA tappedA) = Null
  ∧ hoverTx (onClick touchAtA tappedA) = Obj txA
  ∧ clickEvents (log (onClick touchAtA resized)) = []
  ∧ log (onClick mouseAtA resized) = [TxClickEvent txA false].
Proof.
  destruct (txClickEvent_only_non_touch touchAtA resized) as (H1 & _).
  destruct (txClickEvent_only_non_touch touchAtA tappedA) as (H1' & _).
  destruct (txClickEvent_only_non_touch mouseAtA resized) as (_ & H2).
  destruct H1 as (_ & Hq & Hsel); [reflexivity | reflexivity | reflexivity |].
  destruct H1' as (_ & _ & Hsel');
    [reflexivity | reflexivity | reflexivity |].
  destruct (Hsel sceneAB eq_refl) as (Hfresh & _).
  destruct (Hsel' sceneAB eq_refl) as (_ & Htoggle & _).
  destruct (Htoggle txA eq_refl eq_refl) as (Hs & Hh).
  split; [apply (Hfresh txA); reflexivity|].
  split; [exact Hs|]. split; [exact Hh|]. split; [exact Hq|].
  destruct H2 as (_ & _ & _ & sc & tx & Hsc & Hhit & _ & Hlog).
  - discriminate.
  - injection Hsc as <-. cbn in Hhit. injection Hhit as <-. exact Hlog.
Defined.

(** ** Colour-function resolution *)

(** C6, as stated, fails: with no static mask, no toggled mask and no
    override, [getColorFunction] returns [null], not the default colour
    function (nor any function). *)
Lemma getColorFunction_default_counterexample :
  filterFlags constructed = None
  ∧ activeFilterFlags constructed = None
  ∧ overrideColors constructed = None
  ∧ getColorFunction constructed = None
  ∧ ∀ f, getColorFunction constructed ≠ Some f.
Proof. repeat (split; [reflexivity|]). intros f. discriminate. Qed.

(** A static mask of [0n] is outside the amended claim: [getColorFunction]
    tests the masks for truthiness and passes over [0n], where
    [setFilterFlags] tests [!= null] and takes [0n] for a mask. *)
Lemma getColorFunction_zero_mask :
  filterFlags zeroMasked = Some 0%Z
  ∧ getColorFunction zeroMasked = Some (FilterColorFunction 5).
Proof. split; reflexivity. Qed.

(** C6, amended. For masks that are [null] or not [0n]: [getColorFunction]
    returns the filter colour function of the static mask [filterFlags]
    when that mask is set, whatever [activeFilterFlags] holds; when the
    static mask is [null] and [activeFilterFlags] is set, the filter colour
    function of [activeFilterFlags]; when both are [null], [overrideColors]
    as it is, which is [null] when the host gave no override:
    [getColorFunction] puts no default colour function in its place. *)
Theorem getColorFunction_resolution (c : Component) :
  (∀ F, filterFlags c = Some F → F ≠ 0%Z →
        getColorFunction c = Some (FilterColorFunction F))
  ∧ (filterFlags c = None →
     ∀ A, activeFilterFlags c = Some A → A ≠ 0%Z →
          getColorFunction c = Some (FilterColorFunction A))
  ∧ (filterFlags c = None → activeFilterFlags c = None →
     getColorFunction c = overrideColors c
     ∧ (overrideColors c = None → getColorFunction c = None)).
Proof.
  unfold getColorFunction. split; [|split].
  - intros F -> HF. cbn. apply Z.eqb_neq in HF. rewrite HF. reflexivity.
  - intros -> A -> HA. apply Z.eqb_neq in HA. cbn. rewrite HA. reflexivity.
  - intros -> ->. cbn. split; [reflexivity | auto].
Qed.

Lemma getColorFunction_resolution_witness :
  getColorFunction filteredByHost = Some (FilterColorFunction 1)
  ∧ getColorFunction (set_activeFilterFlags (Some 5%Z) constructed)
    = Some (FilterColorFunction 5)
  ∧ getColorFunction constructed = None.
Proof.
  destruct (getColorFunction_resolution filteredByHost) as (H1 & _).
  destruct (getColorFunction_resolution
              (set_activeFilterFlags (Some 5%Z) constructed))
    as (_ & H2 & _).
  destruct (getColorFunction_resolution constructed) as (_ & _ & H3).
  split; [apply H1; [reflexivity | discriminate]|].
  split; [apply (H2 eq_refl 5%Z); [reflexivity | discriminate]|].
  destruct (H3 eq_refl eq_refl) as (_ & H4). apply H4. reflexivity.
Defined.

(** ** Mirror and search highlight *)

(** With a scene, [setMirror] completes; switching targets unsets the old
    mirror before it sets the new one, and a miss sets nothing. *)
Lemma setMirror_with_scene (id : option string) (c : Component)
    (sc : BlockScene) :
  scene c = Some sc →
  ∃ c', setMirror id c = Normal c'.
Proof.
  intros Hsc. open_component c. unfold setMirror. cbn.
  destruct mir as [ | |m]; cbn;
    (destruct id as [s|]; [|eauto]);
    (destruct (truthy_string s); [|eauto]);
    unfold sceneSetHover; try (destruct afr; cbn);
    destruct (txs sc !! s); eauto.
Qed.

Lemma setMirror_switch (s : string) (c : Component) (sc : BlockScene)
    (old new : TxView) :
  scene c = Some sc → mirrorTx c = Obj old → s ≠ "" →
  txs sc !! s = Some new →
  ∃ c', setMirror (Some s) c = Normal c'
        ∧ mirrorTx c' = Obj new
        ∧ log c' = log c ++ [SceneSetHover old false; SceneSetHover new true].
Proof.
  intros Hsc Hm Hs Hnew. apply truthy_string_true in Hs.
  open_component c. unfold setMirror. cbn. rewrite Hs.
  unfold sceneSetHover. destruct afr; cbn; rewrite Hnew; cbn;
    eexists; (split; [reflexivity|]); cbn; rewrite <- app_assoc; auto.
Qed.

Lemma setMirror_miss (s : string) (c : Component) (sc : BlockScene) :
  scene c = Some sc → truthy (mirrorTx c) = false →
  txs sc !! s = None →
  setMirror (Some s) c = Normal c.
Proof.
  intros Hsc Hm Hmiss. open_component c. unfold setMirror.
  destruct mir; [| |discriminate Hm]; cbn; rewrite Hmiss;
    destruct (truthy_string s); reflexivity.
Qed.

(** C8, the failing input: on the component as constructed, before
    [resizeCanvas] has built the scene, [setMirror] with a non-empty id
    reads [this.scene.txs] on [undefined] and raises a [TypeError]; with an
    empty or missing id it completes. *)
Theorem setMirror_before_scene :
  scene constructed = None
  ∧ setMirror (Some idA) constructed = ThrowTypeError
  ∧ setMirror (Some "") constructed = Normal constructed
  ∧ setMirror None constructed = Normal constructed.
Proof. repeat split. Qed.

(** While a highlighted transaction's id differs from the search text,
    [updateSearchHighlight] takes its first branch and nothing else: the
    highlight is unset, [highlightTx] stays, the search text is not looked
    up. *)
Lemma updateSearchHighlight_unsets (c : Component) (sc : BlockScene)
    (h : TxView) :
  scene c = Some sc → highlightTx c = Obj h →
  searchText c ≠ Some (txid h) →
  let c' := updateSearchHighlight c in
  highlightTx c' = Obj h
  ∧ searchText c' = searchText c
  ∧ scene c' = Some sc
  ∧ log c' = log c ++ [SceneSetHighlight h false].
Proof.
  intros Hsc Hh Hne. open_component c.
  unfold updateSearchHighlight, differs_from_search. cbn.
  rewrite bool_decide_eq_false_2 by exact Hne. cbn.
  unfold sceneSetHighlight. destruct afr; cbn; auto.
Qed.

(** With nothing highlighted, a well-formed search text found in the
    index becomes [highlightTx] and is highlighted. *)
Lemma updateSearchHighlight_sets (c : Component) (sc : BlockScene)
    (s : string) (tx : TxView) :
  scene c = Some sc → truthy (highlightTx c) = false →
  searchText c = Some s → String.length s = 64%nat →
  txs sc !! s = Some tx →
  let c' := updateSearchHighlight c in
  highlightTx c' = Obj tx
  ∧ log c' = log c ++ [SceneSetHighlight tx true].
Proof.
  intros Hsc Hh Hs Hlen Hin. open_component c.
  unfold updateSearchHighlight. cbn.
  assert (Ht : truthy_string s = true).
  { apply truthy_string_true. intros ->. discriminate Hlen. }
  rewrite Ht, Hlen, Hin. cbn.
  destruct hl; [| |discriminate Hh];
    unfold sceneSetHighlight; destruct afr; cbn; auto.
Qed.

(** C7, the failing input: [txA] is highlighted and the search text
    becomes the well-formed id of [txB], which the index holds. The
    invocation unsets the highlight of [txA] and stops: [txB] is not
    highlighted and [highlightTx] is still [txA]; a further invocation does
    the same again. *)
Theorem updateSearchHighlight_stale :
  let c := set_searchText (Some idB) searchedA in
  highlightTx c = Obj txA
  ∧ String.length idB = 64%nat
  ∧ (∃ sc, scene c = Some sc ∧ txs sc !! idB = Some txB)
  ∧ highlightTx (updateSearchHighlight c) = Obj txA
  ∧ log (updateSearchHighlight c) = log c ++ [SceneSetHighlight txA false]
  ∧ highlightTx (updateSearchHighlight (updateSearchHighlight c)) = Obj txA
  ∧ log (updateSearchHighlight (updateSearchHighlight c))
    = log c ++ [SceneSetHighlight txA false; SceneSetHighlight txA false].
Proof.
  cbv zeta. split; [reflexivity|]. split; [reflexivity|].
  split; [exists sceneAB; split; reflexivity|].
  repeat split.
Qed.

(** ** Filters and set-up *)

Lemma fold_left_orb {A : Type} (p : A → bool) (l : list A) (acc : bool) :
  fold_left (fun flagSet tx => flagSet || p tx) l acc = acc || existsb p l.
Proof.
  revert acc. induction l as [|tx l IH]; intros acc; cbn.
  - symmetry. apply orb_false_r.
  - rewrite IH. symmetry. apply orb_assoc.
Qed.

Lemma updateSearchHighlight_filtersAvailable (c : Component) :
  filtersAvailable (updateSearchHighlight c) = filtersAvailable c.
Proof.
  open_component c. unfold updateSearchHighlight, sceneSetHighlight. cbn.
  destruct hl as [ | |h], scn as [sc|]; cbn;
    try destruct (differs_from_search h _); cbn;
    try (destruct afr; reflexivity);
    try reflexivity;
    (destruct srch as [s|]; [|reflexivity]);
    (destruct (truthy_string s && (String.length s =? 64)%nat);
     [|reflexivity]);
    destruct (txs sc !! s); cbn; try reflexivity;
    destruct afr; reflexivity.
Qed.

(** The first half of C5 holds: after [setup(transactions)] the flag says
    whether some transaction has [flags > 0]. *)
Lemma setup_filtersAvailable
    (toFlags : list string → Z)
    (sceneSetup : list TransactionStripped → BlockScene → BlockScene)
    (transactions : list TransactionStripped) (c : Component) :
  filtersAvailable (setup toFlags sceneSetup transactions c)
  = existsb (fun tx => (0 <? flags tx)%Z) transactions.
Proof.
  unfold setup. rewrite fold_left_orb. cbn [orb].
  set (av := existsb _ transactions).
  set (c0 := if negb _ then _ else c). clearbody c0.
  destruct c0 as [cv glc afr ahb rn scn hov sel hl mir tip rdy srch fav aff
                  ff fm oc va dpr win lg].
  cbn. destruct scn as [sc|]; [|reflexivity].
  rewrite updateSearchHighlight_filtersAvailable.
  destruct afr; reflexivity.
Qed.

(** C5, the failing input: the host supplies the mask [1n], the scene
    exists and [filtersAvailable] is still true. [setup([])] finds no flagged
    transaction, calls [setFilterFlags()] while [this.filtersAvailable] still
    holds the old value, and only then stores [false]: the scene is handed
    the filter colour function of [1n], not the override, although
    [filtersAvailable] is false afterwards. *)
Theorem setup_reads_stale_filtersAvailable
    (toFlags : list string → Z)
    (sceneSetup : list TransactionStripped → BlockScene → BlockScene) :
  let c' := setup toFlags sceneSetup [] filteredByHost in
  filtersAvailable filteredByHost = true
  ∧ filtersAvailable c' = false
  ∧ log c' = [SceneSetColorFunction (Some (FilterColorFunction 1));
              SceneSetup []]
  ∧ lastColorFunction (log c') = Some (Some (FilterColorFunction 1))
  ∧ lastColorFunction (log c') ≠ Some (overrideColors c').
Proof. cbv zeta. repeat split. discriminate. Qed.

(** * Further properties *)

(** ** The shader program *)

Section ShaderProgramProperties.
Import Shader ShaderProgram.

Lemma smootherstep_end d : 1 <= d -> smootherstep d == 1.
Proof.
  intros Hd. rewrite smootherstep_ease.
  pose proof (clamp_unit d) as [Hc0 Hc1].
  assert (Hc : 1 <= clamp d 0 1).
  { unfold clamp. apply Q.min_glb; [|lra].
    apply Qle_trans with d; [exact Hd | apply Q.le_max_l]. }
  apply Qle_antisym.
  - apply ease_unit. split; assumption.
  - apply Qle_trans with (ease 1).
    + apply Qle_lteq. right. reflexivity.
    + apply ease_mono; [lra | exact Hc | exact Hc1].
Qed.

(** X1. An attribute renders its start value as long as
    [(now - z) * w <= 0] and its end value once [(now - z) * w >= 1]: for a
    rate [w > 0], the start value up to the start time [z] and the end value
    from [z + 1 / w] on. A rate of [0] is covered by the first case: a
    static attribute renders [x] at all times. *)
Theorem interpolateAttribute_endpoints (attr : vec4) (now : Q) :
  ((now - vz attr) * vw attr <= 0 -> interpolateAttribute now attr == vx attr)
  /\ (1 <= (now - vz attr) * vw attr ->
      interpolateAttribute now attr == vy attr)
  /\ (0 < vw attr -> now <= vz attr ->
      interpolateAttribute now attr == vx attr)
  /\ (0 < vw attr -> vz attr + 1 / vw attr <= now ->
      interpolateAttribute now attr == vy attr).
Proof.
  destruct attr as [x y z w]; cbn [vx vy vz vw].
  unfold interpolateAttribute; cbn [vx vy vz vw].
  assert (Hlo : (now - z) * w <= 0 -> mix x y (smootherstep ((now - z) * w)) == x).
  { intros Hd. pose proof (smootherstep_start _ Hd) as Hs.
    unfold mix. rewrite Hs. ring. }
  assert (Hhi : 1 <= (now - z) * w -> mix x y (smootherstep ((now - z) * w)) == y).
  { intros Hd. pose proof (smootherstep_end _ Hd) as Hs.
    unfold mix. rewrite Hs. ring. }
  split; [exact Hlo|]. split; [exact Hhi|]. split.
  - intros Hw Hnow. apply Hlo. nra.
  - intros Hw Hnow. apply Hhi.
    assert (E : 1 / w * w == 1) by (field; lra).
    assert (K : 1 / w * w <= (now - z) * w) by nra.
    lra.
Qed.

Lemma interpolateAttribute_endpoints_witness :
  interpolateAttribute 90 (Vec4 10 20 100 (1 # 50)) == 10
  /\ interpolateAttribute 150 (Vec4 10 20 100 (1 # 50)) == 20
  /\ interpolateAttribute 777 (Vec4 10 20 100 0) == 10.
Proof.
  destruct (interpolateAttribute_endpoints (Vec4 10 20 100 (1 # 50)) 90)
    as (_ & _ & H1 & _).
  destruct (interpolateAttribute_endpoints (Vec4 10 20 100 (1 # 50)) 150)
    as (_ & _ & _ & H2).
  destruct (interpolateAttribute_endpoints (Vec4 10 20 100 0) 777)
    as (H3 & _).
  split; [apply H1; [reflexivity | discriminate]|].
  split; [apply H2; [reflexivity | discriminate]|].
  apply H3. discriminate.
Defined.

Lemma interpolateAttribute_unit (attr : vec4) (now : Q) :
  0 <= vx attr <= 1 -> 0 <= vy attr <= 1 ->
  0 <= interpolateAttribute now attr <= 1.
Proof.
  intros [Hx0 Hx1] [Hy0 Hy1]. unfold interpolateAttribute.
  pose proof (smootherstep_unit ((now - vz attr) * vw attr)) as [Hs0 Hs1].
  set (s := smootherstep _) in *. unfold mix. split; nra.
Qed.

(** X4. When the start and end values of the four colour attributes lie in
    [[0, 1]], the fragment colour is a valid premultiplied colour at every
    time and for every rate: alpha lies in [[0, 1]] and each of red, green
    and blue lies between [0] and alpha. *)
Theorem fragment_premultiplied (screenSize : vec2) (now : Q) (v : Vertex) :
  (forall attr, In attr [colR v; colG v; colB v; colA v] ->
     (0 <= vx attr <= 1) /\ (0 <= vy attr <= 1)) ->
  let color := fragment (vColor (main screenSize now v)) in
  (0 <= vw color <= 1)
  /\ (0 <= vx color <= vw color)
  /\ (0 <= vy color <= vw color)
  /\ (0 <= vz color <= vw color).
Proof.
  intros Hunit color.
  assert (HR : 0 <= interpolateAttribute now (colR v) <= 1)
    by (apply interpolateAttribute_unit; apply Hunit; cbn; auto).
  assert (HG : 0 <= interpolateAttribute now (colG v) <= 1)
    by (apply interpolateAttribute_unit; apply Hunit; cbn; auto).
  assert (HB : 0 <= interpolateAttribute now (colB v) <= 1)
    by (apply interpolateAttribute_unit; apply Hunit; cbn; auto).
  assert (HA : 0 <= interpolateAttribute now (colA v) <= 1)
    by (apply interpolateAttribute_unit; apply Hunit; cbn; auto 6).
  subst color. unfold fragment, main. cbn [vColor vx vy vz vw].
  set (r := interpolateAttribute now (colR v)) in *.
  set (g := interpolateAttribute now (colG v)) in *.
  set (b := interpolateAttribute now (colB v)) in *.
  set (a := interpolateAttribute now (colA v)) in *.
  repeat split; nra.
Qed.

Lemma fragment_premultiplied_witness :
  let v :=
    MkVertex (Vec2 1 (-1)) (Vec4 100 200 0 (1 # 10)) (Vec4 50 50 0 0)
      (Vec4 5 5 0 0) (Vec4 1 0 0 (1 # 10)) (Vec4 (1 # 2) 1 0 (1 # 10))
      (Vec4 0 0 0 0) (Vec4 1 (1 # 5) 0 (1 # 10)) in
  vx (fragment (vColor (main (Vec2 400 300) 5 v)))
  <= vw (fragment (vColor (main (Vec2 400 300) 5 v))).
Proof.
  cbv zeta.
  match goal with
  | |- vx (fragment (vColor (main ?s ?t ?v))) <= _ =>
    destruct (fragment_premultiplied s t v) as (_ & H & _)
  end.
  - intros attr Hin. cbn in Hin.
    destruct Hin as [<- | [<- | [<- | [<- | []]]]]; cbn;
      repeat split; discriminate.
  - apply H.
Defined.

End ShaderProgramProperties.

(** ** The vertex attribute table *)

Section AttribsProperties.
Import Attribs.
Local Open Scope Z_scope.

Lemma strideOf_from (table : list Attrib) (start : Z) :
  fold_left (fun total attrib => total + count attrib * 4) table start
  = start + strideOf table.
Proof.
  unfold strideOf. revert start.
  induction table as [|attrib rest IH]; intros start; cbn.
  - lia.
  - rewrite IH, (IH (0 + _)). lia.
Qed.

Lemma strideOf_cons (attrib : Attrib) (rest : list Attrib) :
  strideOf (attrib :: rest) = count attrib * 4 + strideOf rest.
Proof. unfold strideOf at 1. cbn. apply strideOf_from. Qed.

Lemma assignOffsets_lookup (table : list Attrib) (running : Z) (i : nat)
    (placed : Attrib) :
  assignOffsets running table !! i = Some placed →
  ∃ attrib,
    table !! i = Some attrib
    ∧ key placed = key attrib ∧ type placed = type attrib
    ∧ count placed = count attrib
    ∧ offset placed = running + strideOf (take i table).
Proof.
  revert running i. induction table as [|a rest IH]; intros running i H.
  - discriminate H.
  - destruct i as [|i]; cbn in H.
    + injection H as <-. exists a. cbn [key type count offset].
      rewrite take_0. change (strideOf []) with 0.
      repeat split; lia.
    + destruct (IH _ _ H) as (attrib & Hin & Hk & Ht & Hc & Ho).
      exists attrib. cbn [take]. rewrite strideOf_cons.
      repeat split; try assumption. rewrite Ho. lia.
Qed.

Lemma strideOf_nonneg (table : list Attrib) :
  Forall (fun attrib => 0 <= count attrib) table → 0 <= strideOf table.
Proof.
  induction 1 as [|a rest Ha _ IH]; [reflexivity|].
  rewrite strideOf_cons. lia.
Qed.

Lemma strideOf_take_succ (table : list Attrib) (i : nat) (attrib : Attrib) :
  table !! i = Some attrib →
  strideOf (take (S i) table) = strideOf (take i table) + count attrib * 4.
Proof.
  revert i. induction table as [|a rest IH]; intros i H; [discriminate H|].
  destruct i as [|i]; cbn in H.
  - injection H as ->. cbn [take]. rewrite strideOf_cons, take_0.
    change (strideOf []) with 0. lia.
  - cbn [take]. rewrite !strideOf_cons, (IH _ H). lia.
Qed.

Lemma strideOf_take_mono (table : list Attrib) (i j : nat) :
  Forall (fun attrib => 0 <= count attrib) table → (i <= j)%nat →
  strideOf (take i table) <= strideOf (take j table)
  ∧ strideOf (take j table) <= strideOf table.
Proof.
  intros Hpos. revert i j.
  induction Hpos as [|a rest Ha Hrest IH]; intros i j Hij.
  - rewrite !take_nil. split; reflexivity.
  - destruct j as [|j].
    + assert (i = 0%nat) as -> by lia. rewrite take_0.
      split; [reflexivity|]. change (strideOf []) with 0. apply (strideOf_nonneg (a :: rest)).
      constructor; assumption.
    + destruct i as [|i]; cbn [take]; rewrite ?strideOf_cons.
      * destruct (IH 0%nat j) as [H1 H2]; [lia|].
        rewrite take_0 in H1. change (strideOf []) with 0 in *. lia.
      * destruct (IH i j) as [H1 H2]; [lia|]. lia.
Qed.

Lemma assignOffsets_fields (table : list Attrib) (running : Z) :
  length (assignOffsets running table) = length table
  ∧ key <$> assignOffsets running table = key <$> table
  ∧ type <$> assignOffsets running table = type <$> table
  ∧ count <$> assignOffsets running table = count <$> table.
Proof.
  revert running. induction table as [|a rest IH]; intros running.
  - repeat split.
  - destruct (IH (running + count a * 4)) as (Hl & Hk & Ht & Hc).
    cbn. rewrite Hl, Hk, Ht, Hc. repeat split.
Qed.

Lemma assignOffsets_last (table : list Attrib) (running : Z) (a : Attrib) :
  last (assignOffsets running table) = Some a →
  offset a + count a * 4 = running + strideOf table.
Proof.
  revert running. induction table as [|b rest IH]; intros running H.
  - discriminate H.
  - rewrite strideOf_cons. destruct rest as [|b' rest'].
    + cbn in H. injection H as <-. cbn [offset count].
      change (strideOf []) with 0. lia.
    + change (assignOffsets running (b :: b' :: rest'))
        with (MkAttrib (key b) (type b) (count b) running
              :: assignOffsets (running + count b * 4) (b' :: rest')) in H.
      cbn [assignOffsets] in H. rewrite last_cons_cons in H.
      cbn [assignOffsets] in IH. rewrite (IH _ H). lia.
Qed.

(** X5. Layout of a vertex, for any attribute table. The offset loop
    changes nothing but the offsets: the table keeps its length and, in
    order, every key, type and count. Attribute [i] gets as offset the
    total size of the attributes before it, so the first attribute starts
    at [0], attribute [i] ends where attribute [i + 1] starts, and the last
    attribute ends at the stride. When no count is negative, an earlier
    attribute ends at or before the start of a later one and every
    attribute ends within the stride: the attributes tile the vertex
    without overlap. *)
Theorem assignOffsets_tiles (table : list Attrib) :
  let placed := assignOffsets 0 table in
  length placed = length table
  ∧ key <$> placed = key <$> table
  ∧ type <$> placed = type <$> table
  ∧ count <$> placed = count <$> table
  ∧ (∀ i a, placed !! i = Some a →
       offset a = strideOf (take i table)
       ∧ offset a + count a * 4 = strideOf (take (S i) table))
  ∧ (∀ a, head placed = Some a → offset a = 0)
  ∧ (∀ i a b, placed !! i = Some a → placed !! S i = Some b →
       offset b = offset a + count a * 4)
  ∧ (∀ a, last placed = Some a → offset a + count a * 4 = strideOf table)
  ∧ (Forall (fun attrib => 0 <= count attrib) table →
     ∀ i j a b, (i < j)%nat → placed !! i = Some a → placed !! j = Some b →
       offset a + count a * 4 <= offset b
       ∧ offset b + count b * 4 <= strideOf table).
Proof.
  intros placed. subst placed.
  destruct (assignOffsets_fields table 0) as (Hl & Hk & Ht & Hc).
  assert (Hat : ∀ i a, assignOffsets 0 table !! i = Some a →
            offset a = strideOf (take i table)
            ∧ offset a + count a * 4 = strideOf (take (S i) table)).
  { intros i a Hi.
    destruct (assignOffsets_lookup _ _ _ _ Hi) as (a0 & Ha & _ & _ & Hca & Hoa).
    rewrite (strideOf_take_succ _ _ _ Ha), Hca, Hoa. lia. }
  split; [exact Hl|]. split; [exact Hk|]. split; [exact Ht|].
  split; [exact Hc|]. split; [exact Hat|]. split; [|split; [|split]].
  - intros a Ha. rewrite head_lookup in Ha.
    destruct (Hat _ _ Ha) as (Ho & _). rewrite Ho, take_0. reflexivity.
  - intros i a b Hi Hj.
    destruct (Hat _ _ Hi) as (_ & Hea). destruct (Hat _ _ Hj) as (Hob & _).
    lia.
  - intros a Ha. rewrite (assignOffsets_last _ _ _ Ha). lia.
  - intros Hpos i j a b Hij Hi Hj.
    destruct (Hat _ _ Hi) as (_ & Hea). destruct (Hat _ _ Hj) as (Hob & Heb).
    destruct (strideOf_take_mono table (S i) j Hpos) as [H1 _]; [lia|].
    destruct (strideOf_take_mono table (S j) (S j) Hpos) as [_ H2]; [lia|].
    lia.
Qed.

Lemma assignOffsets_tiles_witness :
  stride = 120
  ∧ key <$> layout = key <$> attribs
  ∧ type <$> layout = type <$> attribs
  ∧ offset <$> layout = [0; 8; 24; 40; 56; 72; 88; 104]
  ∧ ∃ posR colA,
      layout !! 3%nat = Some posR ∧ layout !! 7%nat = Some colA
      ∧ offset posR + count posR * 4 <= offset colA
      ∧ offset colA + count colA * 4 = stride.
Proof.
  destruct (assignOffsets_tiles attribs)
    as (_ & Hk & Ht & _ & _ & _ & _ & Hlast & Htile).
  split; [reflexivity|]. split; [exact Hk|]. split; [exact Ht|].
  split; [reflexivity|].
  eexists _, _. split; [reflexivity|]. split; [reflexivity|]. split.
  - apply (Htile ltac:(repeat constructor; discriminate) 3%nat 7%nat);
      [lia | reflexivity | reflexivity].
  - apply Hlast. reflexivity.
Defined.

End AttribsProperties.

(** ** [RelativeUrlPipe] *)

Section RelativeUrlPipeProperties.
Import RelativeUrlPipe.

(** X6. What the pipe prefixes, by build. [n] is the network asked for:
    [swapNetwork] when it is a non-empty string, else the current network.
    On a ['mempool'] build the link is [value] itself when [n] is empty,
    ['mainnet'] or the default network, and ['/' + n + value] otherwise. On a
    ['liquid'] build it is ['/testnet' + value] when [n] is
    ['liquidtestnet'] and that is not the default network, and [value]
    otherwise. On every other build it is [value]. *)
Theorem transform_by_module
    (stateService : StateService) (value : string)
    (swapNetwork : option string) :
  let n :=
    match swapNetwork with
    | Some s => if String.eqb s "" then network stateService else s
    | None => network stateService
    end in
  let default := DEFAULT_NETWORK (env stateService) in
  let module := BASE_MODULE (env stateService) in
  (module = "mempool" →
   transform stateService value swapNetwork =
   if bool_decide (n = "" ∨ n = "mainnet" ∨ n = default) then value
   else ("/" ++ n ++ value)%string)
  ∧ (module = "liquid" →
     transform stateService value swapNetwork =
     if bool_decide (n = "liquidtestnet" ∧ default ≠ "liquidtestnet")
     then ("/testnet" ++ value)%string
     else value)
  ∧ (module ≠ "mempool" → module ≠ "liquid" →
     transform stateService value swapNetwork = value).
Proof.
  intros n default module. unfold transform, truthy_string.
  destruct stateService as [net [dflt md]]; cbn in *.
  subst default module.
  assert (Hn : (match swapNetwork with
                | Some s => if negb (String.eqb s "") then s else net
                | None => net
                end) = n).
  { subst n. destruct swapNetwork as [s|]; [|reflexivity].
    destruct (String.eqb s ""); reflexivity. }
  rewrite Hn. clear Hn. clearbody n.
  split; [|split].
  - intros ->. cbn.
    destruct (String.eqb_spec n "mainnet") as [-> | Hm]; cbn.
    + rewrite bool_decide_eq_true_2 by auto. reflexivity.
    + destruct (String.eqb_spec n dflt) as [-> | Hd]; cbn.
      * rewrite bool_decide_eq_true_2 by auto. reflexivity.
      * destruct (String.eqb_spec n "") as [-> | He]; cbn.
        -- rewrite bool_decide_eq_true_2 by auto. reflexivity.
        -- rewrite bool_decide_eq_false_2 by tauto.
           reflexivity.
  - intros ->. cbn.
    destruct (String.eqb_spec n "mainnet") as [-> | Hm]; cbn.
    + rewrite bool_decide_eq_false_2 by (intros [H _]; discriminate H).
      reflexivity.
    + destruct (String.eqb_spec n dflt) as [-> | Hd]; cbn.
      * rewrite bool_decide_eq_false_2 by tauto. reflexivity.
      * destruct (String.eqb_spec n "liquidtestnet") as [-> | Hl]; cbn.
        -- rewrite bool_decide_eq_true_2 by (split; congruence). reflexivity.
        -- rewrite bool_decide_eq_false_2 by tauto. reflexivity.
  - intros Hm Hl.
    apply String.eqb_neq in Hm, Hl. rewrite Hm, Hl. cbn.
    destruct (String.eqb n "mainnet" || String.eqb n dflt); reflexivity.
Qed.

Lemma transform_by_module_witness :
  transform (MkStateService "signet" (MkEnv "mainnet" "mempool"))
    "/tx/ab" None = "/signet/tx/ab"
  ∧ transform (MkStateService "liquid" (MkEnv "liquid" "liquid"))
      "/tx/ab" (Some "liquidtestnet") = "/testnet/tx/ab"
  ∧ transform (MkStateService "signet" (MkEnv "mainnet" "bisq"))
      "/tx/ab" None = "/tx/ab".
Proof.
  split; [|split].
  - destruct (transform_by_module
                (MkStateService "signet" (MkEnv "mainnet" "mempool"))
                "/tx/ab" None) as (H & _).
    apply H. reflexivity.
  - destruct (transform_by_module
                (MkStateService "liquid" (MkEnv "liquid" "liquid"))
                "/tx/ab" (Some "liquidtestnet")) as (_ & H & _).
    apply H. reflexivity.
  - destruct (transform_by_module
                (MkStateService "signet" (MkEnv "mainnet" "bisq"))
                "/tx/ab" None) as (_ & _ & H).
    apply H; discriminate.
Defined.

(** X7. The pipe only ever puts a prefix in front of [value]: the result
    is [value] or ['/' + name + value] with a non-empty [name], and [name]
    is never ['mainnet']. Asking for ['mainnet'] or for the default network
    gives [value] itself on every build, and an empty [swapNetwork] is the
    same as none. *)
Theorem transform_prefix
    (stateService : StateService) (value : string)
    (swapNetwork : option string) :
  (transform stateService value swapNetwork = value
   ∨ ∃ name, name ≠ "" ∧ name ≠ "mainnet"
             ∧ transform stateService value swapNetwork
               = ("/" ++ name ++ value)%string)
  ∧ transform stateService value (Some "mainnet") = value
  ∧ (DEFAULT_NETWORK (env stateService) ≠ "" →
     transform stateService value (Some (DEFAULT_NETWORK (env stateService)))
     = value)
  ∧ transform stateService value (Some "") = transform stateService value None.
Proof.
  destruct stateService as [net [dflt md]]. unfold transform, truthy_string.
  cbn [network env DEFAULT_NETWORK BASE_MODULE].
  split; [|split; [|split]].
  - set (n := match swapNetwork with Some s => _ | None => _ end).
    clearbody n.
    destruct (String.eqb_spec n "mainnet") as [-> | Hm]; cbn [orb].
    + destruct (String.eqb md "liquid"), (String.eqb md "mempool"); cbn;
        left; reflexivity.
    + destruct (String.eqb n dflt); cbn [orb].
      * destruct (String.eqb md "liquid"), (String.eqb md "mempool"); cbn;
          left; reflexivity.
      * destruct (String.eqb md "liquid"); cbn [andb].
        -- destruct (String.eqb n "liquidtestnet").
           ++ right. exists "testnet". repeat split; discriminate || reflexivity.
           ++ destruct (String.eqb md "mempool"); cbn [negb].
              ** destruct (String.eqb_spec n "") as [-> | He]; cbn.
                 --- left; reflexivity.
                 --- right. exists n. repeat split; try assumption.
              ** left; reflexivity.
        -- destruct (String.eqb md "mempool"); cbn [negb].
           ++ destruct (String.eqb_spec n "") as [-> | He]; cbn.
              ** left; reflexivity.
              ** right. exists n. repeat split; try assumption.
           ++ left; reflexivity.
  - cbn. destruct (String.eqb md "liquid"), (String.eqb md "mempool");
      reflexivity.
  - intros Hd. apply String.eqb_neq in Hd. rewrite Hd. cbn [negb].
    rewrite String.eqb_refl, orb_true_r.
    destruct (String.eqb md "liquid"), (String.eqb md "mempool"); reflexivity.
  - reflexivity.
Qed.

Lemma transform_prefix_witness :
  transform (MkStateService "testnet" (MkEnv "testnet" "mempool"))
    "/block/1" (Some "testnet") = "/block/1".
Proof.
  destruct (transform_prefix
              (MkStateService "testnet" (MkEnv "testnet" "mempool"))
              "/block/1" None) as (_ & _ & H & _).
  apply H. discriminate.
Defined.

End RelativeUrlPipeProperties.

(** ** The scheduler's invariant *)

Create Rewrite HintDb timers.

(** Assignments to the other fields leave the scheduler's part alone. *)
Lemma timers_set_running v (c : Component) :
  timers (set_running v c) = timers c.
Proof. destruct c; reflexivity. Qed.
Lemma timers_set_scene v (c : Component) :
  timers (set_scene v c) = timers c.
Proof. destruct c; reflexivity. Qed.
Lemma timers_set_hoverTx v (c : Component) :
  timers (set_hoverTx v c) = timers c.
Proof. destruct c; reflexivity. Qed.
Lemma timers_set_selectedTx v (c : Component) :
  timers (set_selectedTx v c) = timers c.
Proof. destruct c; reflexivity. Qed.
Lemma timers_set_highlightTx v (c : Component) :
  timers (set_highlightTx v c) = timers c.
Proof. destruct c; reflexivity. Qed.
Lemma timers_set_mirrorTx v (c : Component) :
  timers (set_mirrorTx v c) = timers c.
Proof. destruct c; reflexivity. Qed.
Lemma timers_set_tooltipPosition v (c : Component) :
  timers (set_tooltipPosition v c) = timers c.
Proof. destruct c; reflexivity. Qed.
Lemma timers_set_readyNextFrame v (c : Component) :
  timers (set_readyNextFrame v c) = timers c.
Proof. destruct c; reflexivity. Qed.
Lemma timers_set_searchText v (c : Component) :
  timers (set_searchText v c) = timers c.
Proof. destruct c; reflexivity. Qed.
Lemma timers_set_filtersAvailable v (c : Component) :
  timers (set_filtersAvailable v c) = timers c.
Proof. destruct c; reflexivity. Qed.
Lemma timers_set_activeFilterFlags v (c : Component) :
  timers (set_activeFilterFlags v c) = timers c.
Proof. destruct c; reflexivity. Qed.
Lemma timers_set_filterMode v (c : Component) :
  timers (set_filterMode v c) = timers c.
Proof. destruct c; reflexivity. Qed.
Lemma timers_set_vertexArray v (c : Component) :
  timers (set_vertexArray v c) = timers c.
Proof. destruct c; reflexivity. Qed.
Lemma timers_set_log v (c : Component) :
  timers (set_log v c) = timers c.
Proof. destruct c; reflexivity. Qed.
Lemma timers_emit (e : Effect) (c : Component) : timers (emit e c) = timers c.
Proof. destruct c; reflexivity. Qed.

#[local] Hint Rewrite timers_set_running
  timers_set_scene
  timers_set_hoverTx
  timers_set_selectedTx
  timers_set_highlightTx
  timers_set_mirrorTx
  timers_set_tooltipPosition
  timers_set_readyNextFrame
  timers_set_searchText
  timers_set_filtersAvailable
  timers_set_activeFilterFlags
  timers_set_filterMode
  timers_set_vertexArray
  timers_set_log
  timers_emit : timers.
Lemma timers_draw (now : Q) (c : Component) : timers (draw now c) = timers c.
Proof.
  destruct (draw_scheduler now c) as (_ & _ & Hw & Hf & Hh).
  unfold timers. rewrite Hw, Hf, Hh. reflexivity.
Qed.

Lemma filter_drop_held (h : positive) :
  filter (fun h' => h' ≠ h) [h] = [].
Proof.
  cbn. destruct (decide (h ≠ h)) as [Hne | _]; [contradiction Hne|]; reflexivity.
Qed.

Lemma filter_drop_timer (t : positive) (delay : Z) :
  filter (fun x : positive * Z => x.1 ≠ t) [(t, delay)] = [].
Proof.
  cbn. destruct (decide (t ≠ t)) as [Hne | _]; [contradiction Hne|]; reflexivity.
Qed.

Lemma doRun_held (c : Component) :
  timersHeld (timers c) = true → timersHeld (timers (doRun c)) = true.
Proof.
  intros H. destruct (doRun_effect c) as (E1 & E2 & E3 & _ & E5 & _).
  unfold timers, timersHeld in *. rewrite E1, E5, E2, E3.
  apply andb_true_iff in H as [Hf Ht]. apply andb_true_iff. split.
  - destruct (frames (window c)) as [|h [|h2 fr]],
      (animationFrameRequest c) as [p|]; try discriminate Hf.
    + cbn. apply bool_decide_eq_true. reflexivity.
    + cbn. apply bool_decide_eq_true. reflexivity.
    + apply bool_decide_eq_true in Hf as ->. rewrite filter_drop_held.
      cbn. apply bool_decide_eq_true. reflexivity.
  - destruct (timeouts (window c)) as [|[t d] [|x tmo]],
      (animationHeartBeat c), (animationFrameRequest c);
      try discriminate Ht; try reflexivity; exact Ht.
Qed.

Lemma start_held (c : Component) :
  timersHeld (timers c) = true → timersHeld (timers (start c)) = true.
Proof.
  intros H. unfold start. apply doRun_held. rewrite timers_set_running.
  exact H.
Qed.

Lemma filter_keeps_short {A : Type} (P : A → Prop) `{∀ x, Decision (P x)}
    (l : list A) :
  (length l ≤ 1)%nat → filter P l = l ∨ filter P l = [].
Proof.
  destruct l as [|x [|y l]]; cbn; [auto | | lia].
  intros _. destruct (decide (P x)); auto.
Qed.

Lemma clearTimeout_held (t : positive) (c : Component) :
  timersHeld (timers c) = true →
  timersHeld (timers (clearTimeout t c)) = true.
Proof.
  open_component c. destruct win as [nh fr tmo].
  unfold timers, timersHeld, clearTimeout. cbn.
  intros H. apply andb_true_iff in H as [Hf Ht].
  apply andb_true_iff. split; [exact Hf|].
  assert (Hlen : (length tmo ≤ 1)%nat).
  { destruct tmo as [|[? ?] [|? ?]]; cbn; try lia; try discriminate Ht. }
  destruct (filter_keeps_short (fun x : positive * Z => x.1 ≠ t) tmo Hlen)
    as [-> | ->]; [exact Ht | reflexivity].
Qed.

Lemma cancelAnimationFrame_held (h : positive) (c : Component) :
  timersHeld (timers c) = true →
  timersHeld (timers (cancelAnimationFrame h c)) = true.
Proof.
  open_component c. destruct win as [nh fr tmo].
  unfold timers, timersHeld, cancelAnimationFrame. cbn.
  intros H. apply andb_true_iff in H as [Hf Ht].
  apply andb_true_iff. split; [|exact Ht].
  assert (Hlen : (length fr ≤ 1)%nat).
  { destruct fr as [|? [|? ?]]; cbn; try lia; try discriminate Hf. }
  destruct (filter_keeps_short (fun h' : positive => h' ≠ h) fr Hlen)
    as [-> | ->]; [exact Hf | reflexivity].
Qed.

Lemma loop_held (now : Q) (c : Component) :
  timersHeld (timers c) = true → is_Some (animationFrameRequest c) →
  timersHeld (timers (loop now c)) = true.
Proof.
  intros H Hreq.
  destruct (keepsLooping now c) eqn:Hk.
  { unfold loop. rewrite Hk. apply doRun_held, H. }
  destruct (heartbeat_effect now c Hk) as (E1 & E2 & E3 & _ & E5 & _).
  unfold timers, timersHeld in *. rewrite E1, E2, E3, E5.
  destruct Hreq as [p Hp]. rewrite Hp in *.
  apply andb_true_iff in H as [Hf Ht]. rewrite Hf. cbn [andb].
  destruct (timeouts (window c)) as [|[t d] [|x tmo]],
    (animationHeartBeat c) as [t'|]; try discriminate Ht.
  - cbn. apply bool_decide_eq_true. reflexivity.
  - cbn. apply bool_decide_eq_true. reflexivity.
  - apply bool_decide_eq_true in Ht as ->. rewrite filter_drop_timer.
    cbn. apply bool_decide_eq_true. reflexivity.
Qed.

Lemma run_held (clock : Q) (now : option Q) (c : Component) :
  timersHeld (timers c) = true → is_Some (animationFrameRequest c) →
  timersHeld (timers (run clock now c)) = true.
Proof.
  intros H Hreq. unfold run. apply loop_held.
  - rewrite timers_draw. exact H.
  - destruct (draw_scheduler (tickTime clock now) c) as (_ & _ & _ & Hf & _).
    rewrite Hf. exact Hreq.
Qed.

Lemma held_frame_is_request (h : positive) (c : Component) :
  timersHeld (timers c) = true → h ∈ frames (window c) →
  animationFrameRequest c = Some h.
Proof.
  open_component c. destruct win as [nh fr tmo].
  unfold timers, timersHeld. cbn.
  intros H Hin. apply andb_true_iff in H as [Hf _].
  destruct fr as [|h' [|h2 fr]]; [inversion Hin| |discriminate Hf].
  destruct afr as [p|]; [|discriminate Hf].
  apply bool_decide_eq_true in Hf as ->.
  apply list_elem_of_singleton in Hin as ->. reflexivity.
Qed.

Lemma fireFrame_held (clock : Q) (h : positive) (c : Component) :
  timersHeld (timers c) = true →
  timersHeld (timers (fireFrame clock h c)) = true.
Proof.
  intros H. unfold fireFrame.
  destruct (bool_decide (h ∈ frames (window c))) eqn:Hin; [|exact H].
  apply bool_decide_eq_true in Hin.
  pose proof (held_frame_is_request h c H Hin) as Hreq.
  apply run_held.
  - apply cancelAnimationFrame_held, H.
  - destruct c; cbn in *. rewrite Hreq. eauto.
Qed.

Lemma fireTimeout_held (h : positive) (c : Component) :
  timersHeld (timers c) = true →
  timersHeld (timers (fireTimeout h c)) = true.
Proof.
  intros H. unfold fireTimeout. destruct (bool_decide _); [|exact H].
  apply start_held, clearTimeout_held, H.
Qed.

(** Splitting on every test of an operation, whatever it tests, then
    peeling assignments and [start()] calls off the result. *)
Ltac split_tests :=
  repeat match goal with
         | |- context [if ?b then _ else _] => destruct b
         | |- context [match ?x with _ => _ end] => destruct x
         end.

Ltac held :=
  cbv zeta; split_tests;
  repeat first
    [ assumption
    | progress autorewrite with timers
    | apply start_held ].

Lemma setPreviewTx_held (cssX cssY : Q) (clicked : bool) (c : Component) :
  timersHeld (timers c) = true →
  timersHeld (timers (setPreviewTx cssX cssY clicked c)) = true.
Proof.
  intros H. unfold setPreviewTx, sceneSetHover, onTxHover. held.
Qed.

Lemma onClick_held (event : PointerEvent) (c : Component) :
  timersHeld (timers c) = true →
  timersHeld (timers (onClick event c)) = true.
Proof.
  intros H. unfold onClick.
  destruct (negb (canvas c)); [exact H|].
  destruct (_ && _); [apply setPreviewTx_held, H|].
  destruct (targetIsCanvas event); [|exact H].
  unfold onTxClick. held.
Qed.

Lemma onPointerLeave_held (event : PointerEvent) (c : Component) :
  timersHeld (timers c) = true →
  timersHeld (timers (onPointerLeave event c)) = true.
Proof.
  intros H. unfold onPointerLeave.
  destruct (negb _); [apply setPreviewTx_held, H | exact H].
Qed.

Lemma onPointerMove_held (event : PointerEvent) (c : Component) :
  timersHeld (timers c) = true →
  timersHeld (timers (onPointerMove event c)) = true.
Proof.
  intros H. unfold onPointerMove.
  destruct (negb (canvas c)); [exact H|].
  destruct (targetIsCanvas event);
    [apply setPreviewTx_held, H | apply onPointerLeave_held, H].
Qed.

Lemma clickAway_held (event : PointerEvent) (c : Component) :
  timersHeld (timers c) = true →
  timersHeld (timers (clickAway event c)) = true.
Proof.
  intros H. unfold clickAway, sceneSetHover, onTxHover. held.
Qed.

Lemma setMirror_held (id : option string) (c c' : Component) :
  timersHeld (timers c) = true → setMirror id c = Normal c' →
  timersHeld (timers c') = true.
Proof.
  intros H. unfold setMirror, sceneSetHover.
  destruct (mirrorTx c) as [ | |m]; cbv zeta;
    try (destruct (scene c) as [sc|] eqn:Hsc; [|discriminate]);
    (destruct id as [s|]; [|intros [= <-]; held]);
    (destruct (truthy_string s); [|intros [= <-]; held]).
  - destruct (scene c) as [sc|]; [|discriminate].
    destruct (txs sc !! s); intros [= <-]; held.
  - destruct (scene c) as [sc|]; [|discriminate].
    destruct (txs sc !! s); intros [= <-]; held.
  - destruct (scene (start _)) as [sc'|]; [|discriminate].
    destruct (txs sc' !! s); intros [= <-]; held.
Qed.

Lemma updateSearchHighlight_held (c : Component) :
  timersHeld (timers c) = true →
  timersHeld (timers (updateSearchHighlight c)) = true.
Proof.
  intros H. unfold updateSearchHighlight, sceneSetHighlight. held.
Qed.

Lemma setFilterFlags_held (toFlags : list string → Z)
    (goggle : option ActiveFilter) (c : Component) :
  timersHeld (timers c) = true →
  timersHeld (timers (setFilterFlags toFlags goggle c)) = true.
Proof.
  intros H. unfold setFilterFlags. held.
Qed.

Lemma afterMutation_held (sc : BlockScene) (c : Component) :
  timersHeld (timers c) = true →
  timersHeld (timers (afterMutation sc c)) = true.
Proof.
  intros H. unfold afterMutation. cbv zeta.
  apply updateSearchHighlight_held, start_held.
  rewrite timers_set_scene. exact H.
Qed.

Section SchedulerInvariant.

Variable toFlags : list string → Z.
Variable sceneSetup : list TransactionStripped → BlockScene → BlockScene.
Variable sceneEnter :
  list TransactionStripped → string → BlockScene → BlockScene.
Variable sceneExit : string → BlockScene → BlockScene.
Variable sceneReplace :
  list TransactionStripped → string → bool → option Q →
  BlockScene → BlockScene.
Variable sceneUpdate :
  list TransactionStripped → list string → list RateChange → string →
  bool → BlockScene → BlockScene.
Variable sceneDestroy : BlockScene → BlockScene.
Variable sceneSetHighlighting : bool → BlockScene → BlockScene.
Variable sceneSetOrientation : string → bool → BlockScene → BlockScene.

Lemma setup_held (transactions : list TransactionStripped) (c : Component) :
  timersHeld (timers c) = true →
  timersHeld (timers (setup toFlags sceneSetup transactions c)) = true.
Proof.
  intros H. unfold setup. cbv zeta.
  set (c0 := if negb _ then _ else c).
  assert (H0 : timersHeld (timers c0) = true).
  { subst c0. destruct (negb _); [apply setFilterFlags_held, H | exact H]. }
  clearbody c0.
  destruct (scene (set_filtersAvailable _ c0)); autorewrite with timers;
    [|exact H0].
  apply updateSearchHighlight_held, start_held.
  autorewrite with timers. exact H0.
Qed.

Lemma exit_held (direction : string) (c : Component) :
  timersHeld (timers c) = true →
  timersHeld (timers (exit sceneExit direction c)) = true.
Proof.
  intros H. unfold exit.
  destruct (scene c); [apply afterMutation_held, H | exact H].
Qed.

Lemma setHighlightingEnabled_held (enabled : bool) (c : Component) :
  timersHeld (timers c) = true →
  timersHeld
    (timers (setHighlightingEnabled sceneSetHighlighting enabled c)) = true.
Proof. intros H. unfold setHighlightingEnabled. held. Qed.

Lemma ngOnChanges_held (inputs : HostInputs) (changes : list string)
    (c c' : Component) :
  timersHeld (timers c) = true →
  ngOnChanges toFlags sceneSetHighlighting sceneSetOrientation inputs changes c
  = Normal c' →
  timersHeld (timers c') = true.
Proof.
  intros H. unfold ngOnChanges. cbv zeta.
  set (c0 := if _ || _ then _ else c).
  assert (H0 : timersHeld (timers c0) = true) by (subst c0; held).
  clearbody c0.
  destruct (changed "mirrorTxid" changes).
  - destruct (setMirror (mirrorTxid inputs) c0) as [c1|] eqn:Hm;
      [|discriminate].
    pose proof (setMirror_held _ _ _ H0 Hm) as H1. intros [= <-].
    set (c2 := if changed "auditHighlighting" changes then _ else c1).
    assert (H2 : timersHeld (timers c2) = true).
    { subst c2. destruct (changed _ _);
        [apply setHighlightingEnabled_held, H1 | exact H1]. }
    clearbody c2.
    set (c3 := if _ && _ then _ else c2).
    assert (H3 : timersHeld (timers c3) = true) by (subst c3; held).
    clearbody c3.
    destruct (_ || _); [apply setFilterFlags_held, H3 | exact H3].
  - intros [= <-].
    set (c2 := if changed "auditHighlighting" changes then _ else c0).
    assert (H2 : timersHeld (timers c2) = true).
    { subst c2. destruct (changed _ _);
        [apply setHighlightingEnabled_held, H0 | exact H0]. }
    clearbody c2.
    set (c3 := if _ && _ then _ else c2).
    assert (H3 : timersHeld (timers c3) = true) by (subst c3; held).
    clearbody c3.
    destruct (_ || _); [apply setFilterFlags_held, H3 | exact H3].
Qed.

Lemma perform_held (op : Op) (c c' : Component) :
  timersHeld (timers c) = true →
  perform toFlags sceneSetup sceneEnter sceneExit sceneReplace sceneUpdate
    sceneDestroy sceneSetHighlighting sceneSetOrientation op c = Normal c' →
  timersHeld (timers c') = true.
Proof.
  intros H. destruct op; cbn [perform];
    try (intros [= <-]).
  - apply start_held, H.
  - apply fireFrame_held, H.
  - apply fireTimeout_held, H.
  - apply onClick_held, H.
  - apply onPointerMove_held, H.
  - apply onPointerLeave_held, H.
  - apply clickAway_held, H.
  - intros Hm. apply (setMirror_held _ _ _ H Hm).
  - unfold onSearchText. apply updateSearchHighlight_held.
    rewrite timers_set_searchText. exact H.
  - apply setFilterFlags_held, H.
  - apply setup_held, H.
  - unfold enter. destruct (scene c); [apply afterMutation_held, H | exact H].
  - apply exit_held, H.
  - unfold replace.
    destruct (scene c); [apply afterMutation_held, H | exact H].
  - unfold update.
    destruct (scene c); [apply afterMutation_held, H | exact H].
  - unfold clear, onTxHover. cbv zeta. apply start_held.
    autorewrite with timers. apply exit_held, H.
  - unfold destroy. held.
  - apply setHighlightingEnabled_held, H.
  - intros Hc. apply (ngOnChanges_held _ _ _ _ H Hc).
Qed.

(** X8. No duplicate requests. Starting from a component whose pending
    callbacks are the ones it holds, after any run of host calls, DOM events
    and browser callbacks that completes, at most one animation frame is
    pending and it is [animationFrameRequest], and at most one timer is
    pending and it is [animationHeartBeat]. (Context loss, which resets
    [animationFrameRequest], is not among the operations.) *)
Theorem performAll_timersHeld (ops : list Op) (c c' : Component) :
  timersHeld (timers c) = true →
  performAll toFlags sceneSetup sceneEnter sceneExit sceneReplace sceneUpdate
    sceneDestroy sceneSetHighlighting sceneSetOrientation ops c = Normal c' →
  timersHeld (timers c') = true
  ∧ (length (frames (window c')) ≤ 1)%nat
  ∧ (length (timeouts (window c')) ≤ 1)%nat
  ∧ (∀ h, h ∈ frames (window c') → animationFrameRequest c' = Some h)
  ∧ (∀ t, t ∈ (timeouts (window c')).*1 → animationHeartBeat c' = Some t).
Proof.
  intros H Hrun.
  assert (H' : timersHeld (timers c') = true).
  { revert c H Hrun. induction ops as [|op ops IH]; intros c H Hrun.
    - cbn in Hrun. injection Hrun as <-. exact H.
    - cbn [performAll] in Hrun.
      destruct (perform _ _ _ _ _ _ _ _ _ op c) as [c1|] eqn:Hop;
        [|discriminate].
      apply (IH c1); [apply (perform_held _ _ _ H Hop) | exact Hrun]. }
  split; [exact H'|].
  pose proof (held_frame_is_request) as Hfr.
  destruct c' as [cv glc afr ahb rn scn hov sel hl mir tip rdy srch fav aff
                  ff fm oc va dpr [nh fr tmo] lg].
  unfold timers, timersHeld in H'. cbn in *.
  apply andb_true_iff in H' as [Hf Ht].
  split; [|split; [|split]].
  - destruct fr as [|? [|? ?]]; cbn; try lia; discriminate Hf.
  - destruct tmo as [|[? ?] [|? ?]]; cbn; try lia; discriminate Ht.
  - intros h Hin. destruct fr as [|h' [|? ?]]; [inversion Hin| |discriminate Hf].
    destruct afr; [|discriminate Hf].
    apply bool_decide_eq_true in Hf as ->.
    apply list_elem_of_singleton in Hin as ->. reflexivity.
  - intros t Hin.
    destruct tmo as [|[t' d] [|? ?]]; [inversion Hin| |discriminate Ht].
    destruct ahb, afr; try discriminate Ht.
    apply bool_decide_eq_true in Ht as ->.
    cbn in Hin. apply list_elem_of_singleton in Hin as ->. reflexivity.
Qed.

End SchedulerInvariant.

Lemma performAll_timersHeld_witness :
  match performAll (fun _ => 0%Z) (fun _ sc => sc) (fun _ _ sc => sc)
    (fun _ sc => sc) (fun _ _ _ _ sc => sc) (fun _ _ _ _ _ sc => sc)
    (fun sc => sc) (fun _ sc => sc) (fun _ _ sc => sc) sampleOps resized with
  | Normal c' =>
    (length (frames (window c')) ≤ 1)%nat
    ∧ (length (timeouts (window c')) ≤ 1)%nat
  | ThrowTypeError => False
  end.
Proof.
  match goal with
  | |- match ?run with _ => _ end =>
    assert (E : ∃ c', run = Normal c') by (vm_compute; eexists; reflexivity);
      destruct E as [c' E]; rewrite E
  end.
  assert (H0 : timersHeld (timers resized) = true) by reflexivity.
  destruct (performAll_timersHeld _ _ _ _ _ _ _ _ _ sampleOps resized c' H0 E)
    as (_ & H1 & H2 & _).
  split; assumption.
Defined.

Lemma filter_drops_all {A : Type} (P : A → Prop) `{∀ x, Decision (P x)}
    (l : list A) :
  (∀ x, x ∈ l → ¬ P x) → filter P l = [].
Proof.
  induction l as [|x l IH]; intros Hall; [reflexivity|].
  rewrite filter_cons_False by (apply Hall; left).
  apply IH. intros y Hy. apply Hall. right. exact Hy.
Qed.

(** X9. Tear-down cancels under [if (this.animationFrameRequest)] only.
    When a frame request [h] is held, [ngOnDestroy] cancels the frame [h]
    and the heartbeat the component holds, and nothing else; if every
    pending frame is [h] and every pending timer is the held heartbeat,
    nothing is left pending and no later firing of any handle calls back
    into the component. When no frame request is held, [ngOnDestroy]
    cancels nothing: a pending timer stays pending and, when it fires,
    [start()] sets [running] and requests a frame. *)
Theorem ngOnDestroy_cancels_all (c : Component) :
  let c' := ngOnDestroy c in
  (∀ h, animationFrameRequest c = Some h →
     frames (window c') = filter (fun h' => h' ≠ h) (frames (window c))
     ∧ timeouts (window c') =
       match animationHeartBeat c with
       | Some t => filter (fun x => x.1 ≠ t) (timeouts (window c))
       | None => timeouts (window c)
       end
     ∧ ((∀ h', h' ∈ frames (window c) → h' = h) →
        (∀ x, x ∈ timeouts (window c) → animationHeartBeat c = Some x.1) →
        frames (window c') = [] ∧ timeouts (window c') = []
        ∧ (∀ clock h', fireFrame clock h' c' = c')
        ∧ (∀ t, fireTimeout t c' = c')))
  ∧ (animationFrameRequest c = None →
     c' = c
     ∧ ∀ t, t ∈ (timeouts (window c)).*1 →
         let c'' := fireTimeout t c' in
         running c'' = true
         ∧ animationFrameRequest c'' = Some (nextHandle (window c))
         ∧ nextHandle (window c) ∈ frames (window c'')).
Proof.
  intros c'. subst c'. split.
  - intros h Hh.
    assert (E : frames (window (ngOnDestroy c))
                = filter (fun h' => h' ≠ h) (frames (window c))
                ∧ timeouts (window (ngOnDestroy c)) =
                  match animationHeartBeat c with
                  | Some t => filter (fun x => x.1 ≠ t) (timeouts (window c))
                  | None => timeouts (window c)
                  end).
    { destruct c as [cv glc afr ahb rn scn hov sel hl mir tip rdy srch fav
                     aff ff fm oc va dpr [nh fr tmo] lg].
      cbn in Hh. subst afr. unfold ngOnDestroy. cbn.
      destruct ahb; cbn; split; reflexivity. }
    destruct E as [Ef Et]. split; [exact Ef|]. split; [exact Et|].
    intros Hfr Htm.
    assert (Ef0 : frames (window (ngOnDestroy c)) = []).
    { rewrite Ef. apply filter_drops_all. intros h' Hin Hne.
      apply Hne, Hfr, Hin. }
    assert (Et0 : timeouts (window (ngOnDestroy c)) = []).
    { rewrite Et. destruct (animationHeartBeat c) as [t|] eqn:Hb.
      - apply filter_drops_all. intros x Hin Hne.
        apply Htm in Hin. injection Hin as Hin. apply Hne. symmetry.
        exact Hin.
      - destruct (timeouts (window c)) as [|x l]; [reflexivity|].
        discriminate (Htm x ltac:(left)). }
    split; [exact Ef0|]. split; [exact Et0|]. split.
    + intros clock h'. unfold fireFrame. rewrite Ef0.
      rewrite bool_decide_eq_false_2; [reflexivity|]. apply not_elem_of_nil.
    + intros t. unfold fireTimeout. rewrite Et0.
      rewrite bool_decide_eq_false_2; [reflexivity|]. apply not_elem_of_nil.
  - intros Hnone.
    assert (E : ngOnDestroy c = c) by (unfold ngOnDestroy; rewrite Hnone; reflexivity).
    split; [exact E|]. intros t Hin. rewrite E. cbv zeta.
    unfold fireTimeout. rewrite bool_decide_eq_true_2 by exact Hin.
    pose proof (start_effect (clearTimeout t c)) as S.
    rewrite clearTimeout_keeps in S. exact S.
Qed.

Lemma ngOnDestroy_cancels_all_witness :
  timeouts (window idling) = [(2%positive, 1000%Z)]
  ∧ frames (window idling) = [3%positive]
  ∧ frames (window (ngOnDestroy idling)) = []
  ∧ timeouts (window (ngOnDestroy idling)) = []
  ∧ timeouts (window (ngOnDestroy heartbeatOnly)) = [(2%positive, 1000%Z)]
  ∧ running (fireTimeout 2 (ngOnDestroy heartbeatOnly)) = true.
Proof.
  destruct (ngOnDestroy_cancels_all idling) as (H1 & _).
  destruct (ngOnDestroy_cancels_all heartbeatOnly) as (_ & H2).
  destruct (H1 3%positive eq_refl) as (_ & _ & H3).
  destruct H3 as (Hf & Ht & _).
  { intros h' Hin. apply list_elem_of_singleton in Hin. exact Hin. }
  { intros x Hin. apply list_elem_of_singleton in Hin. subst x. reflexivity. }
  destruct (H2 eq_refl) as (Hsame & Hfire).
  destruct (Hfire 2%positive) as (Hrun & _).
  { apply list_elem_of_here. }
  split; [reflexivity|]. split; [reflexivity|]. split; [exact Hf|].
  split; [exact Ht|]. split; [rewrite Hsame; reflexivity | exact Hrun].
Defined.

(** ** Ticks *)

Lemma loop_quiet (now : Q) (c : Component) :
  log (loop now c) = log c
  ∧ readyNextFrame (loop now c) = readyNextFrame c
  ∧ vertexArray (loop now c) = vertexArray c
  ∧ scene (loop now c) = scene c
  ∧ gl (loop now c) = gl c.
Proof.
  unfold loop. destruct (keepsLooping now c).
  - unfold doRun. open_component c. destruct win, afr; cbn; auto.
  - open_component c. destruct win, ahb; cbn; auto.
Qed.

(** What a tick with timestamp [now] adds to the log, in order, and what
    it leaves in the flags. *)
Lemma draw_effect (now : Q) (c : Component) :
  log (draw now c) =
  log c ++
  (if draws c then
     GlUniforms now
     :: (if dirty (vertexArray c) then
           GlVertexAttribPointers
           :: (if (0 <? vertexDataLength (vertexArray c))%nat
               then [GlBufferData; GlDrawArrays] else [])
         else
           if (0 <? vertexDataLength (vertexArray c))%nat
           then [GlDrawArrays] else [])
     ++ (if readyNextFrame c then [ReadyEvent] else [])
   else [])
  ∧ readyNextFrame (draw now c) = (if draws c then false else readyNextFrame c)
  ∧ dirty (vertexArray (draw now c))
    = (if draws c then false else dirty (vertexArray c))
  ∧ vertexDataLength (vertexArray (draw now c))
    = vertexDataLength (vertexArray c)
  ∧ draws (draw now c) = draws c.
Proof.
  open_component c. unfold draw, draws. cbn.
  destruct scn, glc, va as [[|] [|n]], rdy; cbn;
    rewrite <- ?app_assoc, ?app_nil_r; cbn; auto 10.
Qed.

Lemma run_effect (clock : Q) (now : option Q) (c : Component) :
  log (run clock now c) = log (draw (tickTime clock now) c)
  ∧ readyNextFrame (run clock now c)
    = readyNextFrame (draw (tickTime clock now) c)
  ∧ vertexArray (run clock now c) = vertexArray (draw (tickTime clock now) c)
  ∧ draws (run clock now c) = draws (draw (tickTime clock now) c).
Proof.
  unfold run.
  destruct (loop_quiet (tickTime clock now) (draw (tickTime clock now) c))
    as (H1 & H2 & H3 & H4 & H5).
  unfold draws. rewrite H1, H2, H3, H4, H5. auto.
Qed.

Ltac filter_log :=
  rewrite ?List.filter_app; cbn [List.filter app];
  rewrite ?List.filter_app; cbn [List.filter app]; rewrite ?app_nil_r.

(** X10. The ready notification is one-shot. Over any run of ticks,
    [readyEvent] is emitted once if a tick draws (scene and GL context
    present) and the flag [readyNextFrame] was armed, and not at all
    otherwise; without a scene or a GL context the flag stays armed. *)
Theorem ticks_ready_once (nows : list Q) (c : Component) :
  readyEvents (log (ticks nows c)) =
  readyEvents (log c) ++
  match nows with
  | [] => []
  | _ :: _ => if draws c && readyNextFrame c then [ReadyEvent] else []
  end
  ∧ readyNextFrame (ticks nows c) =
    match nows with
    | [] => readyNextFrame c
    | _ :: _ => if draws c then false else readyNextFrame c
    end.
Proof.
  revert c. induction nows as [|now nows IH]; intros c.
  - cbn. rewrite app_nil_r. auto.
  - change (ticks (now :: nows) c) with (ticks nows (run now None c)).
    destruct (IH (run now None c)) as [IH1 IH2]. rewrite IH1, IH2.
    destruct (run_effect now None c) as (R1 & R2 & _ & R4).
    destruct (draw_effect (tickTime now None) c) as (D1 & D2 & _ & _ & D5).
    rewrite R1, R2, R4, D1, D2, D5. unfold readyEvents.
    destruct (draws c), (dirty (vertexArray c)),
      (0 <? vertexDataLength (vertexArray c))%nat, (readyNextFrame c), nows;
      filter_log; auto.
Qed.

(** X11. The vertex buffer is uploaded at most once. Over any run of
    ticks, [bufferData] is called once if the ticks draw and the vertex array
    was dirty and not empty, and never otherwise; yet every one of these
    ticks calls [drawArrays] when the array is not empty. Without a scene or
    a GL context the ticks make no GL call at all. *)
Theorem ticks_upload_once (nows : list Q) (c : Component) :
  uploads (log (ticks nows c)) =
  uploads (log c) ++
  match nows with
  | [] => []
  | _ :: _ =>
    if draws c && dirty (vertexArray c)
       && (0 <? vertexDataLength (vertexArray c))%nat
    then [GlBufferData] else []
  end
  ∧ length (drawCalls (log (ticks nows c))) =
    (length (drawCalls (log c))
     + if draws c && (0 <? vertexDataLength (vertexArray c))%nat
       then length nows else 0)%nat
  ∧ (draws c = false → glCalls (log (ticks nows c)) = glCalls (log c)).
Proof.
  revert c. induction nows as [|now nows IH]; intros c.
  - cbn. rewrite app_nil_r.
    destruct (draws c && _); rewrite Nat.add_0_r; auto.
  - change (ticks (now :: nows) c) with (ticks nows (run now None c)).
    destruct (IH (run now None c)) as (IH1 & IH2 & IH3).
    destruct (run_effect now None c) as (R1 & _ & R3 & R4).
    destruct (draw_effect (tickTime now None) c) as (D1 & _ & D3 & D4 & D5).
    rewrite R4, D5 in IH1, IH2, IH3. rewrite R3 in IH1, IH2.
    rewrite D3 in IH1. rewrite D4 in IH1, IH2.
    rewrite R1, D1 in IH1, IH2, IH3.
    split; [|split].
    + rewrite IH1. unfold uploads.
      destruct (draws c), (dirty (vertexArray c)),
        (0 <? vertexDataLength (vertexArray c))%nat, (readyNextFrame c), nows;
        filter_log; auto.
    + rewrite IH2. unfold drawCalls. cbn [length].
      destruct (draws c), (dirty (vertexArray c)),
        (0 <? vertexDataLength (vertexArray c))%nat, (readyNextFrame c);
        filter_log; rewrite ?length_app; cbn; lia.
    + intros Hd. rewrite (IH3 Hd), Hd. rewrite app_nil_r. reflexivity.
Qed.

Lemma ticks_upload_once_witness :
  glCalls (log (ticks [10; 20; 30] constructed)) = [].
Proof.
  destruct (ticks_upload_once [10; 20; 30] constructed) as (_ & _ & H).
  apply H. reflexivity.
Defined.

(** ** Hover *)

(** X12. While a transaction is selected, pointer moves over the canvas
    change nothing: hover tracking is suspended until the selection is
    given up. *)
Theorem onPointerMove_suspended (event : PointerEvent) (c : Component) :
  truthy (selectedTx c) = true → targetIsCanvas event = true →
  onPointerMove event c = c.
Proof.
  intros Hsel Htg. unfold onPointerMove, setPreviewTx. rewrite Htg, Hsel.
  destruct (negb (canvas c)); [reflexivity|].
  destruct (scene c); reflexivity.
Qed.

Lemma onPointerMove_suspended_witness :
  onPointerMove mouseAtA tappedA = tappedA.
Proof. apply onPointerMove_suspended; reflexivity. Defined.

(** X13. Hover tracking, on a component with a canvas and a scene and no
    selection, for a pointer move over the canvas. Moving onto a transaction
    [X] that is not the hovered one moves the scene's hover from the old
    transaction to [X], makes [X] the [hoverTx] and notifies [X]'s id;
    moving on within the hovered transaction emits nothing; moving off a
    hovered transaction onto empty canvas unsets its hover and notifies
    none. *)
Theorem onPointerMove_tracks (event : PointerEvent) (c : Component)
    (sc : BlockScene) :
  canvas c = true → scene c = Some sc → truthy (selectedTx c) = false →
  targetIsCanvas event = true →
  let hit :=
    getTxAt sc
      (SpriteTypes.MkPosition (offsetX event * devicePixelRatio c)
         (offsetY event * devicePixelRatio c)) in
  let c' := onPointerMove event c in
  (∀ X, hit = Obj X → hoverTx c ≠ Obj X →
        hoverTx c' = Obj X ∧ selectedTx c' = selectedTx c
        ∧ log c' =
          log c
          ++ match hoverTx c with
             | Obj old => [SceneSetHover old false]
             | _ => []
             end
          ++ [SceneSetHover X true; TxHoverEvent (Some (txid X))])
  ∧ (hit = hoverTx c →
     hoverTx c' = hoverTx c ∧ selectedTx c' = selectedTx c ∧ log c' = log c)
  ∧ (∀ old, truthy hit = false → hoverTx c = Obj old →
        hoverTx c' = Null ∧ selectedTx c' = selectedTx c
        ∧ log c' = log c ++ [SceneSetHover old false; TxHoverEvent None]).
Proof.
  intros Hcv Hsc Hsel Htg hit c'. subst c'. unfold onPointerMove.
  rewrite Hcv, Htg. cbn [negb].
  open_component c. unfold setPreviewTx. cbn. fold hit.
  rewrite Hsel. cbn. unfold or_ref. rewrite Hsel.
  split; [|split].
  - intros X Hhit Hne. rewrite Hhit.
    assert (E : strict_eq (Obj X) hov = false)
      by (apply strict_eq_false; congruence).
    rewrite E. cbn.
    destruct hov, afr; cbn; rewrite <- ?app_assoc; auto.
  - intros Hhit. rewrite Hhit, strict_eq_refl. cbn. auto.
  - intros old Hhit ->.
    assert (E : strict_eq hit (Obj old) = false).
    { apply strict_eq_false. intros E. rewrite E in Hhit. discriminate Hhit. }
    rewrite E. cbn.
    destruct hit; [| |discriminate Hhit];
      destruct afr; cbn; rewrite <- ?app_assoc; auto.
Qed.

Lemma onPointerMove_tracks_witness :
  hoverTx (onPointerMove mouseAtA resized) = Obj txA
  ∧ log (onPointerMove mouseAtA resized)
    = [SceneSetHover txA true; TxHoverEvent (Some idA)]
  ∧ log (onPointerMove mouseAtA (onPointerMove mouseAtA resized))
    = log (onPointerMove mouseAtA resized).
Proof.
  destruct (onPointerMove_tracks mouseAtA resized sceneAB
              eq_refl eq_refl eq_refl eq_refl) as (H1 & _).
  destruct (onPointerMove_tracks mouseAtA (onPointerMove mouseAtA resized)
              sceneAB eq_refl eq_refl eq_refl eq_refl) as (_ & H2 & _).
  destruct (H1 txA) as (Ha & _ & Hb); [reflexivity | discriminate |].
  split; [exact Ha|]. split; [exact Hb|].
  apply H2. reflexivity.
Defined.

Lemma hoverFlag_snoc (l : list Effect) (e : Effect) (tx : TxView) :
  hoverFlag (l ++ [e]) tx =
  match e with
  | SceneSetHover tx' value =>
    if bool_decide (tx' = tx) then value else hoverFlag l tx
  | _ => hoverFlag l tx
  end.
Proof. unfold hoverFlag. rewrite fold_left_app. destruct e; reflexivity. Qed.

#[local] Arguments hoverFlag : simpl never.

Ltac hover_flags :=
  intros tx; rewrite ?hoverFlag_snoc;
  repeat match goal with
         | H : ∀ tx : TxView, _ ↔ _ |- _ => specialize (H tx)
         end;
  repeat case_bool_decide; simplify_eq; cbn in *;
  try tauto; intuition congruence.

Lemma setPreviewTx_hoverShown (cssX cssY : Q) (clicked : bool)
    (c : Component) :
  hoverShown c → hoverShown (setPreviewTx cssX cssY clicked c).
Proof.
  intros H. unfold hoverShown, currentPreview in *.
  open_component c. unfold setPreviewTx. cbn.
  destruct scn as [sc|]; [|exact H].
  destruct (negb (truthy sel) || clicked) eqn:G; [|exact H].
  set (S := getTxAt sc _). clearbody S.
  destruct (strict_eq S (or_ref sel hov)) eqn:E; cbn.
  - apply strict_eq_true in E.
    destruct clicked; [|exact H].
    destruct (strict_eq S sel) eqn:E2; cbn.
    + apply strict_eq_true in E2.
      assert (K : or_ref sel hov = sel) by congruence.
      intros tx. rewrite hoverFlag_snoc, (H tx), K.
      unfold or_ref. cbn. reflexivity.
    + apply strict_eq_false in E2.
      intros tx. rewrite (H tx), <- E.
      unfold or_ref in *. destruct (truthy S) eqn:TS; [reflexivity|].
      destruct (truthy sel); [congruence|]. rewrite E. reflexivity.
  - apply strict_eq_false in E. unfold or_ref in *.
    destruct sel as [ | |s], hov as [ | |h], S as [ | |x], clicked, afr;
      cbn in *; try discriminate G; try congruence; hover_flags.
Qed.

Lemma setPreviewTx_scene (cssX cssY : Q) (clicked : bool) (c : Component) :
  scene (setPreviewTx cssX cssY clicked c) = scene c.
Proof.
  open_component c. unfold setPreviewTx. cbn.
  destruct scn as [sc|]; [|reflexivity].
  destruct (negb (truthy sel) || clicked); [|reflexivity].
  destruct (strict_eq _ (or_ref sel hov)); cbn.
  - destruct clicked; [|reflexivity]. destruct (strict_eq _ sel); reflexivity.
  - destruct (or_ref sel hov), (getTxAt sc _), clicked, afr; reflexivity.
Qed.

Lemma onTxClick_hoverShown (cssX cssY : Q) (keyModifier : bool)
    (c : Component) :
  hoverShown c →
  hoverShown (onTxClick cssX cssY keyModifier c)
  ∧ scene (onTxClick cssX cssY keyModifier c) = scene c.
Proof.
  intros H. unfold hoverShown, currentPreview in *.
  open_component c. unfold onTxClick. cbn.
  destruct scn as [sc|]; [|auto].
  destruct (getTxAt sc _) as [ | |tx']; auto.
  destruct (truthy_string (txid tx')); auto. cbn. split; [|reflexivity].
  intros tx. rewrite hoverFlag_snoc. apply H.
Qed.

Lemma clickAway_hoverShown (event : PointerEvent) (c : Component) :
  is_Some (scene c) → hoverShown c →
  hoverShown (clickAway event c) ∧ scene (clickAway event c) = scene c.
Proof.
  intros [sc Hsc] H. unfold hoverShown, currentPreview in *.
  open_component c. unfold clickAway. cbn.
  destruct (negb (targetInRoot event)); [|auto].
  unfold or_ref in *.
  destruct sel as [ | |s], hov as [ | |h], afr; cbn in *;
    (split; [|reflexivity]); hover_flags.
Qed.

Lemma listen_hoverShown (l : Listener) (event : PointerEvent)
    (c : Component) :
  is_Some (scene c) → hoverShown c →
  hoverShown (listen l event c) ∧ scene (listen l event c) = scene c.
Proof.
  intros Hsc H.
  assert (Hleave : hoverShown (onPointerLeave event c)
                   ∧ scene (onPointerLeave event c) = scene c).
  { unfold onPointerLeave. destruct (negb _); [|auto].
    split; [apply setPreviewTx_hoverShown, H | apply setPreviewTx_scene]. }
  destruct l; cbn [listen].
  - unfold onClick. destruct (negb (canvas c)); [auto|].
    destruct (_ && _).
    + split; [apply setPreviewTx_hoverShown, H | apply setPreviewTx_scene].
    + destruct (targetIsCanvas event); [|auto].
      apply onTxClick_hoverShown, H.
  - unfold onPointerMove. destruct (negb (canvas c)); [auto|].
    destruct (targetIsCanvas event); [|exact Hleave].
    split; [apply setPreviewTx_hoverShown, H | apply setPreviewTx_scene].
  - exact Hleave.
  - apply clickAway_hoverShown; assumption.
Qed.

(** X14. The scene's hover highlight follows the preview. On a component
    with a scene, if the transactions whose hover is set on the scene are
    exactly the current preview [selectedTx || hoverTx], then this is so
    again after any run of pointer-up, pointer-move, pointer-leave and
    document-click events: no highlight is left behind on a transaction
    that is no longer previewed, and the previewed one is highlighted. *)
Theorem listenAll_hoverShown
    (events : list (Listener * PointerEvent)) (c : Component) :
  is_Some (scene c) → hoverShown c →
  hoverShown (listenAll events c) ∧ scene (listenAll events c) = scene c.
Proof.
  revert c. induction events as [|[l event] events IH]; intros c Hsc H.
  - auto.
  - change (listenAll ((l, event) :: events) c)
      with (listenAll events (listen l event c)).
    destruct (listen_hoverShown l event c Hsc H) as [H1 H2].
    destruct (IH (listen l event c)) as [H3 H4];
      [rewrite H2; exact Hsc | exact H1 |].
    split; [exact H3 | congruence].
Qed.

Lemma listenAll_hoverShown_witness :
  hoverShown
    (listenAll
       [ (OnPointerMove, mouseAtA); (OnPointerUp, touchAtA);
         (OnPointerLeave, mouseLeave); (OnDocumentClick, mouseLeave) ]
       resized).
Proof.
  apply listenAll_hoverShown.
  - eexists. reflexivity.
  - intros tx. split; discriminate.
Defined.

(** ** Mirror, search and filters *)

(** A transaction id, 64 characters long, is no name inherited from
    [Object.prototype]. *)
Lemma txid_not_inherited (s : string) :
  String.length s = 64%nat → s ∉ objectPrototypeKeys.
Proof.
  intros Hlen Hin.
  assert (F : Forall (fun k => String.length k ≠ 64%nat) objectPrototypeKeys)
    by (repeat constructor; cbn; discriminate).
  rewrite Forall_forall in F. exact (F s Hin Hlen).
Qed.

(** X15. With a scene and an id that is no name inherited from
    [Object.prototype] (every transaction id is such an id), [setMirror]
    never throws and moves the mirror highlight: the hover of the old
    mirror is unset and, when the id is non-empty and in the index, the
    transaction found becomes [mirrorTx] and its hover is set last. On a
    miss [mirrorTx] is left pointing at the old mirror although its hover
    has been unset. *)
Theorem setMirror_moves_hover (id : option string) (c : Component)
    (sc : BlockScene) :
  scene c = Some sc →
  (∀ s, id = Some s → s ∉ objectPrototypeKeys) →
  let found :=
    match id with
    | Some s => if truthy_string s then txs sc !! s else None
    | None => None
    end in
  ∃ c',
    setMirror id c = Normal c'
    ∧ mirrorTx c' =
      match found with Some tx => Obj tx | None => mirrorTx c end
    ∧ log c' =
      log c
      ++ match mirrorTx c with Obj m => [SceneSetHover m false] | _ => [] end
      ++ match found with Some tx => [SceneSetHover tx true] | None => [] end
    ∧ (∀ tx, found = Some tx → hoverFlag (log c') tx = true)
    ∧ (∀ m, mirrorTx c = Obj m → found ≠ Some m →
            hoverFlag (log c') m = false).
Proof.
  intros Hsc _ found.
  assert (E : ∃ c',
    setMirror id c = Normal c'
    ∧ mirrorTx c' =
      match found with Some tx => Obj tx | None => mirrorTx c end
    ∧ log c' =
      log c
      ++ match mirrorTx c with Obj m => [SceneSetHover m false] | _ => [] end
      ++ match found with Some tx => [SceneSetHover tx true] | None => [] end).
  { subst found. open_component c. unfold setMirror, sceneSetHover. cbn.
    destruct mir as [ | |m], id as [s|]; cbn;
      try destruct (truthy_string s); cbn;
      try destruct afr; cbn;
      try destruct (txs sc !! s) as [tx|]; cbn;
      eexists; (split; [reflexivity|]); cbn;
      rewrite <- ?app_assoc, ?app_nil_r; auto. }
  destruct E as (c' & E1 & E2 & E3). exists c'.
  split; [exact E1|]. split; [exact E2|]. split; [exact E3|]. split.
  - intros tx Hf. rewrite E3, Hf, app_assoc, hoverFlag_snoc.
    rewrite bool_decide_eq_true_2 by reflexivity. reflexivity.
  - intros m Hm Hne. rewrite E3, Hm.
    destruct found as [tx|].
    + rewrite app_assoc, !hoverFlag_snoc.
      rewrite bool_decide_eq_false_2 by congruence.
      rewrite bool_decide_eq_true_2 by reflexivity. reflexivity.
    + rewrite app_nil_r, hoverFlag_snoc.
      rewrite bool_decide_eq_true_2 by reflexivity. reflexivity.
Qed.

Lemma setMirror_moves_hover_witness :
  ∃ c', setMirror (Some idB) resized = Normal c'
        ∧ mirrorTx c' = Obj txB
        ∧ hoverFlag (log c') txB = true.
Proof.
  assert (Hid : ∀ s, Some idB = Some s → s ∉ objectPrototypeKeys).
  { intros s Hs. injection Hs as <-. apply txid_not_inherited. reflexivity. }
  destruct (setMirror_moves_hover (Some idB) resized sceneAB eq_refl Hid)
    as (c' & H1 & H2 & _ & H4 & _).
  exists c'. split; [exact H1|]. split; [exact H2|].
  apply H4. reflexivity.
Defined.

Lemma highlightsSet_snoc (l : list Effect) (e : Effect) :
  highlightsSet (l ++ [e]) = highlightsSet l ++ highlightsSet [e].
Proof. unfold highlightsSet. apply List.filter_app. Qed.

(** X16. Only a search text of exactly 64 characters can set a highlight:
    with any other search text, or none, [updateSearchHighlight] leaves
    [highlightTx] as it is and adds no [setHighlight(_, true)] call. *)
Theorem updateSearchHighlight_needs_64 (c : Component) :
  (∀ s, searchText c = Some s → String.length s ≠ 64%nat) →
  highlightTx (updateSearchHighlight c) = highlightTx c
  ∧ highlightsSet (log (updateSearchHighlight c)) = highlightsSet (log c).
Proof.
  intros Hlen. open_component c.
  unfold updateSearchHighlight, sceneSetHighlight. cbn.
  assert (Hs : ∀ s, srch = Some s →
            truthy_string s && (String.length s =? 64)%nat = false).
  { intros s Hs. apply andb_false_iff. right. apply Nat.eqb_neq.
    apply Hlen, Hs. }
  destruct hl as [ | |h], scn as [sc|]; cbn;
    try (destruct (differs_from_search h _); cbn);
    try (destruct afr; cbn; rewrite highlightsSet_snoc, app_nil_r; auto);
    try (destruct srch as [s|]; [rewrite (Hs s eq_refl)|]; auto);
    auto.
Qed.

Lemma updateSearchHighlight_needs_64_witness :
  highlightsSet (log (onSearchText "aaaa" resized)) = [].
Proof.
  destruct (updateSearchHighlight_needs_64
              (set_searchText (Some "aaaa") resized)) as (_ & H).
  - intros s [= <-]. discriminate.
  - exact H.
Defined.

(** X17. Typing a transaction's id and then another text: with nothing
    highlighted, a 64-character search text that the index holds under
    the transaction's own id highlights that transaction; a following
    different search text unsets the highlight again, and [highlightTx]
    still refers to the transaction. *)
Theorem onSearchText_sets_then_unsets (c : Component) (sc : BlockScene)
    (s s' : string) (tx : TxView) :
  scene c = Some sc → truthy (highlightTx c) = false →
  String.length s = 64%nat → txs sc !! s = Some tx → txid tx = s →
  s' ≠ s →
  let c1 := onSearchText s c in
  let c2 := onSearchText s' c1 in
  highlightTx c1 = Obj tx
  ∧ log c1 = log c ++ [SceneSetHighlight tx true]
  ∧ highlightTx c2 = Obj tx
  ∧ log c2 = log c ++ [SceneSetHighlight tx true; SceneSetHighlight tx false].
Proof.
  intros Hsc Hh Hlen Hin Hid Hne c1 c2.
  assert (Hs1 : ∀ c0, searchText (set_searchText (Some s) c0) = Some s)
    by (intros c0; destruct c0; reflexivity).
  assert (H1 : highlightTx c1 = Obj tx
               ∧ log c1 = log c ++ [SceneSetHighlight tx true]
               ∧ scene c1 = Some sc).
  { subst c1. unfold onSearchText. cbv zeta.
    destruct (updateSearchHighlight_sets (set_searchText (Some s) c) sc s tx)
      as (Ha & Hb); try assumption.
    - destruct c; exact Hsc.
    - destruct c; exact Hh.
    - apply Hs1.
    - split; [exact Ha|]. split; [destruct c; exact Hb|].
      clear - Hsc Hh Hlen Hin. open_component c.
      unfold updateSearchHighlight, sceneSetHighlight. cbn.
      assert (Ht : truthy_string s = true).
      { apply truthy_string_true. intros ->. discriminate Hlen. }
      rewrite Ht, Hlen, Hin. cbn.
      destruct hl; [| |discriminate Hh]; destruct afr; reflexivity. }
  destruct H1 as (H1a & H1b & H1c).
  split; [exact H1a|]. split; [exact H1b|].
  subst c2. unfold onSearchText. cbv zeta.
  destruct (updateSearchHighlight_unsets (set_searchText (Some s') c1) sc tx)
    as (Ha & _ & _ & Hb).
  - destruct c1; exact H1c.
  - destruct c1; exact H1a.
  - destruct c1; cbn. rewrite Hid. congruence.
  - split; [exact Ha|]. rewrite Hb.
    replace (log (set_searchText (Some s') c1)) with (log c1)
      by (destruct c1; reflexivity).
    rewrite H1b, <- app_assoc. reflexivity.
Qed.

Lemma onSearchText_sets_then_unsets_witness :
  log (onSearchText "" (onSearchText idA resized))
  = [SceneSetHighlight txA true; SceneSetHighlight txA false].
Proof.
  destruct (onSearchText_sets_then_unsets resized sceneAB idA "" txA)
    as (_ & _ & _ & H);
    [reflexivity | reflexivity | reflexivity | reflexivity | reflexivity
    | discriminate | exact H].
Defined.

#[local] Arguments lastColorFunction : simpl never.

Lemma lastColorFunction_snoc (l : list Effect) (f : option ColorFunction) :
  lastColorFunction (l ++ [SceneSetColorFunction f]) = Some f.
Proof. unfold lastColorFunction. rewrite fold_left_app. reflexivity. Qed.

(** X18. The two ways a colour function reaches the scene. With no gesture
    and a scene, [setFilterFlags()] hands the scene what [getColorFunction()]
    (used when the scene is built) would return, provided filters are
    available and the host's mask is not [0n]. When filters are not
    available the two differ for a non-zero host mask: [setFilterFlags()]
    hands over the override, [getColorFunction()] the filter colour
    function. *)
Theorem setFilterFlags_agrees (toFlags : list string → Z) (c : Component)
    (sc : BlockScene) :
  scene c = Some sc →
  let c' := setFilterFlags toFlags None c in
  (filtersAvailable c = true → filterFlags c ≠ Some 0%Z →
   lastColorFunction (log c') = Some (getColorFunction c'))
  ∧ (∀ F, filtersAvailable c = false → filterFlags c = Some F → F ≠ 0%Z →
          lastColorFunction (log c') = Some (overrideColors c)
          ∧ getColorFunction c' = Some (FilterColorFunction F)).
Proof.
  intros Hsc c'. subst c'. open_component c.
  unfold setFilterFlags, getColorFunction. cbn. split.
  - intros -> Hff.
    destruct ff as [F|]; cbn.
    + assert (HF : (F =? 0)%Z = false) by (apply Z.eqb_neq; congruence).
      destruct afr; cbn; rewrite HF, lastColorFunction_snoc; reflexivity.
    + destruct afr; cbn; rewrite lastColorFunction_snoc; reflexivity.
  - intros F -> -> HF. apply Z.eqb_neq in HF.
    destruct afr; cbn; rewrite HF, lastColorFunction_snoc; auto.
Qed.

Lemma setFilterFlags_agrees_witness :
  lastColorFunction (log (setFilterFlags (fun _ => 0%Z) None filteredByHost))
  = Some (Some (FilterColorFunction 1)).
Proof.
  destruct (setFilterFlags_agrees (fun _ => 0%Z) filteredByHost sceneAB
              eq_refl) as (H & _).
  rewrite H; [reflexivity | reflexivity | discriminate].
Defined.

Lemma setFilterFlags_fields (toFlags : list string → Z)
    (goggle : option ActiveFilter) (c : Component) :
  let c' := setFilterFlags toFlags goggle c in
  activeFilterFlags c' =
    match goggle with
    | Some gesture =>
      match filters gesture with
      | Some fs => Some (toFlags fs)
      | None => filterFlags c
      end
    | None => filterFlags c
    end
  ∧ filterMode c' =
    match goggle with
    | Some gesture =>
      if truthy_string (mode gesture) then mode gesture else filterMode c
    | None => filterMode c
    end
  ∧ filterFlags c' = filterFlags c
  ∧ running c' = true.
Proof.
  open_component c. unfold setFilterFlags.
  destruct goggle as [[m [fs|]]|]; cbn;
    try destruct (truthy_string m); cbn;
    destruct scn, afr; cbn;
    try destruct fav; try destruct ff; cbn; auto.
Qed.

(** X19. A filter gesture and its end. A gesture with filters makes
    [toFlags(filters)] the active mask, whatever the host's mask is, and its
    mode, when not empty, the filter mode. Ending the gesture
    ([setFilterFlags()] with no argument) makes the host's mask the active
    mask again, but the filter mode stays the one of the gesture. *)
Theorem setFilterFlags_gesture (toFlags : list string → Z)
    (gesture : ActiveFilter) (fs : list string) (c : Component) :
  filters gesture = Some fs →
  let c1 := setFilterFlags toFlags (Some gesture) c in
  let c2 := setFilterFlags toFlags None c1 in
  activeFilterFlags c1 = Some (toFlags fs)
  ∧ filterMode c1
    = (if truthy_string (mode gesture) then mode gesture else filterMode c)
  ∧ activeFilterFlags c2 = filterFlags c
  ∧ filterMode c2 = filterMode c1
  ∧ running c2 = true.
Proof.
  intros Hfs c1 c2.
  destruct (setFilterFlags_fields toFlags (Some gesture) c)
    as (A1 & M1 & F1 & _).
  destruct (setFilterFlags_fields toFlags None c1) as (A2 & M2 & _ & R2).
  fold c1 in A1, M1, F1. fold c2 in A2, M2, R2.
  rewrite Hfs in A1.
  split; [exact A1|]. split; [exact M1|]. split; [congruence|].
  split; [exact M2 | exact R2].
Qed.

Lemma setFilterFlags_gesture_witness :
  let c1 :=
    setFilterFlags (fun fs => Z.of_nat (length fs))
      (Some (MkActiveFilter "or" (Some ["rbf"; "cpfp"]))) filteredByHost in
  activeFilterFlags c1 = Some 2%Z
  ∧ activeFilterFlags
      (setFilterFlags (fun fs => Z.of_nat (length fs)) None c1) = Some 1%Z
  ∧ filterMode (setFilterFlags (fun fs => Z.of_nat (length fs)) None c1)
    = "or".
Proof.
  cbv zeta.
  destruct (setFilterFlags_gesture (fun fs => Z.of_nat (length fs))
              (MkActiveFilter "or" (Some ["rbf"; "cpfp"])) ["rbf"; "cpfp"]
              filteredByHost eq_refl) as (H1 & H2 & H3 & H4 & _).
  split; [exact H1|]. split; [exact H3|]. rewrite H4, H2. reflexivity.
Defined.

(** ** Input changes and the missing scene *)

Lemma colorFunctionCalls_snoc (l : list Effect) (e : Effect) :
  colorFunctionCalls (l ++ [e]) = colorFunctionCalls l ++ colorFunctionCalls [e].
Proof. unfold colorFunctionCalls. apply List.filter_app. Qed.

Lemma setMirror_colorFunctionCalls (id : option string) (c c' : Component) :
  setMirror id c = Normal c' →
  colorFunctionCalls (log c') = colorFunctionCalls (log c).
Proof.
  open_component c. unfold setMirror, sceneSetHover. cbn.
  destruct mir as [ | |m], scn as [sc|], id as [s|]; cbn;
    try destruct (truthy_string s); cbn;
    try destruct afr; cbn;
    try destruct (txs sc !! s); cbn;
    intros [= <-]; cbn;
    rewrite ?colorFunctionCalls_snoc; cbn; rewrite ?app_nil_r; reflexivity.
Qed.

Lemma undeclared_overrideColor : "overrideColor" ∉ declaredInputs.
Proof.
  unfold declaredInputs. intros H.
  repeat (apply elem_of_cons in H as [H | H]; [discriminate H|]).
  inversion H.
Qed.

Lemma overrideColors_declared : "overrideColors" ∈ declaredInputs.
Proof.
  unfold declaredInputs.
  repeat first [apply list_elem_of_here | apply list_elem_of_further].
Qed.

Section InputChanges.

Variable toFlags : list string → Z.
Variable sceneSetHighlighting : bool → BlockScene → BlockScene.
Variable sceneSetOrientation : string → bool → BlockScene → BlockScene.

Lemma setHighlightingEnabled_log (enabled : bool) (c : Component) :
  log (setHighlightingEnabled sceneSetHighlighting enabled c) = log c.
Proof.
  open_component c. unfold setHighlightingEnabled. cbn.
  destruct scn, afr; reflexivity.
Qed.

(** X20. A change of the [overrideColors] input never reaches the scene
    through [ngOnChanges]. The method tests the key [overrideColor], which
    is not the name of any input; so for every set of changed inputs that
    does not contain [filterFlags], [showFilters] or [filterMode], no
    [setColorFunction] call is made, and when [overrideColors] alone has
    changed the component is left exactly as it was. *)
Theorem ngOnChanges_ignores_overrideColors
    (inputs : HostInputs) (changes : list string) (c c' : Component) :
  (∀ k, k ∈ changes → k ∈ declaredInputs) →
  ngOnChanges toFlags sceneSetHighlighting sceneSetOrientation inputs changes c
  = Normal c' →
  ("filterFlags" ∉ changes → "showFilters" ∉ changes →
   "filterMode" ∉ changes →
   colorFunctionCalls (log c') = colorFunctionCalls (log c))
  ∧ (changes = ["overrideColors"] → c' = c).
Proof.
  intros Hdecl Hrun.
  assert (Hover : changed "overrideColor" changes = false).
  { unfold changed. apply bool_decide_eq_false_2. intros Hin.
    apply undeclared_overrideColor, Hdecl, Hin. }
  unfold ngOnChanges in Hrun. cbv zeta in Hrun. rewrite Hover in Hrun.
  cbn [andb] in Hrun.
  split.
  - intros H1 H2 H3.
    assert (Hf : changed "filterFlags" changes || changed "showFilters" changes
                 || changed "filterMode" changes = false).
    { unfold changed. rewrite !bool_decide_eq_false_2 by assumption.
      reflexivity. }
    rewrite Hf in Hrun.
    set (c0 := if _ || _ then _ else c) in Hrun.
    assert (H0 : log c0 = log c).
    { subst c0. destruct (_ || _); [|reflexivity].
      destruct c as [? ? ? ? ? [sc|] ? ? ? ? ? ? ? ? ? ? ? ? ? ? ? ?];
        reflexivity. }
    clearbody c0.
    destruct (changed "mirrorTxid" changes).
    + destruct (setMirror (mirrorTxid inputs) c0) as [c1|] eqn:Hm;
        [|discriminate Hrun].
      injection Hrun as <-.
      pose proof (setMirror_colorFunctionCalls _ _ _ Hm) as Hc.
      destruct (changed "auditHighlighting" changes);
        rewrite ?setHighlightingEnabled_log; congruence.
    + injection Hrun as <-.
      destruct (changed "auditHighlighting" changes);
        rewrite ?setHighlightingEnabled_log; congruence.
  - intros ->.
    assert (Hk : ∀ k, k ≠ "overrideColors" →
              changed k ["overrideColors"] = false).
    { intros k Hk. unfold changed. apply bool_decide_eq_false_2.
      intros Hin. apply list_elem_of_singleton in Hin. contradiction. }
    rewrite !Hk in Hrun by discriminate. cbn in Hrun.
    injection Hrun as <-. reflexivity.
Qed.

End InputChanges.

Lemma ngOnChanges_ignores_overrideColors_witness :
  ∃ c',
    ngOnChanges (fun _ => 0%Z) (fun _ sc => sc) (fun _ _ sc => sc)
      (MkHostInputs "left" true None false) ["overrideColors"] idling
    = Normal c'
    ∧ c' = idling.
Proof.
  assert (E : ngOnChanges (fun _ => 0%Z) (fun _ sc => sc) (fun _ _ sc => sc)
                (MkHostInputs "left" true None false) ["overrideColors"]
                idling = Normal idling) by reflexivity.
  assert (Hd : ∀ k, k ∈ ["overrideColors"] → k ∈ declaredInputs).
  { intros k Hk. apply list_elem_of_singleton in Hk as ->.
    exact overrideColors_declared. }
  destruct (ngOnChanges_ignores_overrideColors _ _ _ _ _ _ _ Hd E)
    as (_ & H).
  exists idling. split; [exact E | apply H; reflexivity].
Defined.

Section MissingScene.

Variable toFlags : list string → Z.
Variable sceneSetup : list TransactionStripped → BlockScene → BlockScene.
Variable sceneEnter :
  list TransactionStripped → string → BlockScene → BlockScene.
Variable sceneExit : string → BlockScene → BlockScene.
Variable sceneReplace :
  list TransactionStripped → string → bool → option Q →
  BlockScene → BlockScene.
Variable sceneUpdate :
  list TransactionStripped → list string → list RateChange → string →
  bool → BlockScene → BlockScene.
Variable sceneDestroy : BlockScene → BlockScene.
Variable sceneSetHighlighting : bool → BlockScene → BlockScene.
Variable sceneSetOrientation : string → bool → BlockScene → BlockScene.

(** X21. Before the scene exists, the operations guarded by
    [if (this.scene)] do nothing: any run of pointer-up, pointer-move and
    pointer-leave events and of [enter], [exit], [replace], [update],
    [destroy] and [setHighlightingEnabled] calls completes and leaves the
    component exactly as it was. *)
Theorem guarded_without_scene (ops : list Op) (c : Component) :
  scene c = None → forallb guardedByScene ops = true →
  performAll toFlags sceneSetup sceneEnter sceneExit sceneReplace sceneUpdate
    sceneDestroy sceneSetHighlighting sceneSetOrientation ops c = Normal c.
Proof.
  intros Hsc. induction ops as [|op ops IH]; [reflexivity|].
  cbn [forallb]. intros H. apply andb_true_iff in H as [Hop Hops].
  cbn [performAll].
  assert (E : perform toFlags sceneSetup sceneEnter sceneExit sceneReplace
                sceneUpdate sceneDestroy sceneSetHighlighting
                sceneSetOrientation op c = Normal c).
  { destruct op; try discriminate Hop; cbn [perform]; f_equal.
    - unfold onClick, setPreviewTx, onTxClick. rewrite Hsc.
      destruct (negb (canvas c)), (targetIsCanvas event),
        (String.eqb (pointerType event) "touch"); reflexivity.
    - unfold onPointerMove, onPointerLeave, setPreviewTx. rewrite Hsc.
      destruct (negb (canvas c)), (targetIsCanvas event),
        (negb (String.eqb (pointerType event) "touch")); reflexivity.
    - unfold onPointerLeave, setPreviewTx. rewrite Hsc.
      destruct (negb _); reflexivity.
    - unfold enter. rewrite Hsc. reflexivity.
    - unfold exit. rewrite Hsc. reflexivity.
    - unfold replace. rewrite Hsc. reflexivity.
    - unfold update. rewrite Hsc. reflexivity.
    - unfold destroy. rewrite Hsc. reflexivity.
    - unfold setHighlightingEnabled. rewrite Hsc. reflexivity. }
  rewrite E. apply IH, Hops.
Qed.

End MissingScene.

Lemma guarded_without_scene_witness :
  performAll (fun _ => 0%Z) (fun _ sc => sc) (fun _ _ sc => sc)
    (fun _ sc => sc) (fun _ _ _ _ sc => sc) (fun _ _ _ _ _ sc => sc)
    (fun sc => sc) (fun _ sc => sc) (fun _ _ sc => sc)
    [PointerMove mouseAtA; PointerUp touchAtA; Exit "left"; Destroy]
    constructed
  = Normal constructed.
Proof. apply guarded_without_scene; reflexivity. Defined.
